(** * secret_message: a shallow embedding of [secret_message.py]

    The script fetches a published document, reads a table of
    [(x, character, y)] rows out of its markup, places the characters on a
    grid and prints the grid bottom row last.  The embedding follows the
    source function by function:

    - Python exceptions are a [result] type, printing is a list of the
      arguments of the successive [print] calls (the [io] monad);
    - Python integers are [Z]; list indexing is Python's, negative indices
      counting from the end and anything else raising [IndexError];
    - the two libraries the script calls ([requests] and BeautifulSoup's
      parser) are parameters of the pipeline; the navigation of the parsed
      tree ([find], [find_all], [get_text]) is modelled on a small tree type.

    Text is modelled as Rocq strings, so [str.strip], [str.isspace] and
    [int] are the ASCII fragment of Python's. *)

From Stdlib Require Import ZArith Lia Ascii.
From stdpp Require Import base option list strings.

Local Open Scope string_scope.
Local Open Scope Z_scope.

(** ** Exceptions and output *)

Inductive exn : Type :=
| RequestException (err : string)
| ValueError
| IndexError.

Inductive result (A : Type) : Type :=
| Ok (a : A)
| Raise (e : exn).
Arguments Ok {A} a.
Arguments Raise {A} e.

#[global] Instance result_ret : MRet result := fun A a => Ok a.
#[global] Instance result_bind : MBind result := fun A B f m =>
  match m with
  | Ok a => f a
  | Raise e => Raise e
  end.

(** Standard output: the texts of the [print] calls made so far, oldest
    first. *)
Definition stdout : Type := list string.

Definition io (A : Type) : Type := stdout -> result A * stdout.

#[global] Instance io_ret : MRet io := fun A a out => (Ok a, out).
#[global] Instance io_bind : MBind io := fun A B f m out =>
  match m out with
  | (Ok a, out') => f a out'
  | (Raise e, out') => (Raise e, out')
  end.

Definition print (line : string) : io unit :=
  fun out => (Ok tt, (out ++ [line])%list).

(** A computation that may raise but does not print. *)
Definition lift {A} (r : result A) : io A := fun out => (r, out).

(** [for x in l: body x] *)
Fixpoint for_ {A} (l : list A) (body : A -> io unit) : io unit :=
  match l with
  | [] => mret tt
  | x :: l' => body x ;; for_ l' body
  end.

(** ** The Python built-ins the script uses *)

Module Py.

(** [str.isspace] on an ASCII character: TAB, LF, VT, FF, CR, the four
    separators 0x1c-0x1f and the space. *)
Definition isspace (a : ascii) : bool :=
  let n := nat_of_ascii a in
  ((9 <=? n) && (n <=? 13) || (28 <=? n) && (n <=? 32))%nat.

Fixpoint lstrip (s : string) : string :=
  match s with
  | String a s' => if isspace a then lstrip s' else s
  | EmptyString => EmptyString
  end.

Definition rstrip (s : string) : string := String.rev (lstrip (String.rev s)).

Definition strip (s : string) : string := rstrip (lstrip s).

Definition digit (a : ascii) : option Z :=
  let n := nat_of_ascii a in
  if ((48 <=? n) && (n <=? 57))%nat then Some (Z.of_nat n - 48) else None.

(** Decimal digits, single underscores allowed between two digits.
    [after_digit] says whether the previous character was a digit. *)
Fixpoint digits (s : string) (acc : Z) (after_digit : bool) : option Z :=
  match s with
  | EmptyString => if after_digit then Some acc else None
  | String a s' =>
      match digit a with
      | Some d => digits s' (10 * acc + d) true
      | None =>
          if (Ascii.eqb a "_" && after_digit)%bool
          then digits s' acc false
          else None
      end
  end.

(** [int(s)] for a string: surrounding whitespace is ignored, one sign is
    allowed, anything else raises [ValueError]. *)
Definition int (s : string) : result Z :=
  let unsigned t :=
    match digits t 0 false with
    | Some n => Ok n
    | None => Raise ValueError
    end in
  match strip s with
  | String "+" t => unsigned t
  | String "-" t => n ← unsigned t; Ok (- n)
  | t => unsigned t
  end.

(** [sep.join(l)] *)
Fixpoint join (sep : string) (l : list string) : string :=
  match l with
  | [] => ""
  | [s] => s
  | s :: l' => s ++ sep ++ join sep l'
  end.

(** [max] of an iterable of integers; the empty one raises [ValueError]. *)
Definition max (l : list Z) : result Z :=
  match l with
  | [] => Raise ValueError
  | x :: l' => Ok (foldl Z.max x l')
  end.

(** [range(n)] *)
Definition range (n : Z) : list Z := seqZ 0 n.

(** The position a list of length [len] gives to index [i]: a negative
    index counts from the end, an index outside [-len, len) raises
    [IndexError]. *)
Definition index (len : nat) (i : Z) : result nat :=
  let i' := if i <? 0 then i + Z.of_nat len else i in
  if (0 <=? i') && (i' <? Z.of_nat len)
  then Ok (Z.to_nat i')
  else Raise IndexError.

(** [l[i]] *)
Definition getitem {A} (l : list A) (i : Z) : result A :=
  k ← index (length l) i;
  match l !! k with
  | Some a => Ok a
  | None => Raise IndexError
  end.

(** [l[i] = v] *)
Definition setitem {A} (l : list A) (i : Z) (v : A) : result (list A) :=
  k ← index (length l) i;
  Ok (<[k := v]> l).

End Py.

(** ** The parsed document

    What the parser returns: a tree of tags and text.  The document itself
    is a tag (BeautifulSoup names it [[document]]). *)

#[warnings="-register-all"]
Inductive node : Type :=
| NavigableString (s : string)
| Tag (name : string) (contents : list node).

Module Soup.

(** Everything below a node, in document order. *)
Fixpoint descendants (n : node) : list node :=
  match n with
  | NavigableString _ => []
  | Tag _ contents => flat_map (fun c => c :: descendants c) contents
  end.

Definition is_tag (names : list string) (n : node) : bool :=
  match n with
  | NavigableString _ => false
  | Tag name _ => bool_decide (name ∈ names)
  end.

(** [n.find_all(names)]: the tags below [n] with one of the names. *)
Definition find_all (names : list string) (n : node) : list node :=
  List.filter (is_tag names) (descendants n).

(** [n.find(name)]: the first of them, or [None]. *)
Definition find (name : string) (n : node) : option node :=
  head (find_all [name] n).

Definition all_strings (n : node) : list string :=
  match n with
  | NavigableString s => [s]
  | Tag _ _ =>
      omap (fun d => match d with
                     | NavigableString s => Some s
                     | Tag _ _ => None
                     end) (descendants n)
  end.

(** [n.get_text()] *)
Definition get_text (n : node) : string := Py.join "" (all_strings n).

End Soup.

(** ** The HTTP response *)

Record Response : Type := {
  status_code : Z;
  text : string;
  (** what [str] gives for the [HTTPError] of this response *)
  http_error_msg : string
}.

(** [response.raise_for_status()]: client and server error statuses
    raise [HTTPError], a [RequestException]. *)
Definition raise_for_status (response : Response) : result unit :=
  if (400 <=? status_code response) && (status_code response <? 600)
  then Raise (RequestException (http_error_msg response))
  else Ok tt.

(** ** The script *)

(** A placed character [(x, y, char)]. *)
Abbreviation entry := (Z * Z * string)%type.

Abbreviation Grid := (list (list string)).

Section Pipeline.

(** [requests.get] and [BeautifulSoup(_, 'html.parser')]. *)
Variable requests_get : string -> result Response.
Variable bs : string -> node.

Definition fetch_and_parse_doc (url : string) : io (option string) :=
  match
    (response ← requests_get url;
     raise_for_status response;;
     Ok (text response))
  with
  | Ok body => mret (Some body)
  | Raise (RequestException err) =>
      print ("Error fetching the document: " ++ err)%string;;
      mret None
  | Raise e => lift (Raise e)
  end.

(** The body of the loop over the rows: the entries collected so far,
    extended by this row's entry if it has one. *)
Definition parse_row (characters : list entry) (row : node)
  : result (list entry) :=
  let cells := Soup.find_all ["td"; "th"] row in
  if (3 <=? length cells)%nat then
    match
      (c0 ← Py.getitem cells 0;
       x ← Py.int (Py.strip (Soup.get_text c0));
       c1 ← Py.getitem cells 1;
       let char := Py.strip (Soup.get_text c1) in
       c2 ← Py.getitem cells 2;
       y ← Py.int (Py.strip (Soup.get_text c2));
       Ok (if bool_decide (char = "")
           then characters
           else (characters ++ [(x, y, char)])%list))
    with
    | Ok characters' => Ok characters'
    | Raise ValueError => Ok characters
    | Raise e => Raise e
    end
  else Ok characters.

Fixpoint parse_rows (rows : list node) (characters : list entry)
  : result (list entry) :=
  match rows with
  | [] => Ok characters
  | row :: rows' =>
      characters' ← parse_row characters row;
      parse_rows rows' characters'
  end.

Definition parse_table_characters (table_str : string) : io (list entry) :=
  let soup := bs table_str in
  match Soup.find "table" soup with
  | None =>
      print "No table found in the document.";;
      mret []
  | Some table =>
      let rows := Soup.find_all ["tr"] table in
      lift (parse_rows (drop 1 rows) [])
  end.

(** [grid[y][x] = char].  The row is fetched and then updated in place; the
    rows of the grid are distinct lists, so only that row changes. *)
Definition place (grid : Grid) (e : entry) : result Grid :=
  let '(x, y, char) := e in
  row ← Py.getitem grid y;
  row' ← Py.setitem row x char;
  Py.setitem grid y row'.

Fixpoint populate (grid : Grid) (characters : list entry) : result Grid :=
  match characters with
  | [] => Ok grid
  | e :: rest =>
      grid' ← place grid e;
      populate grid' rest
  end.

(** [max(x for x, _, _ in characters)] and [max(y for _, y, _ in characters)] *)
Definition max_x (characters : list entry) : result Z :=
  Py.max (map (fun '(x, _, _) => x) characters).

Definition max_y (characters : list entry) : result Z :=
  Py.max (map (fun '(_, y, _) => y) characters).

(** [[[' ' for _ in range(max_x + 1)] for _ in range(max_y + 1)]] *)
Definition blank_grid (max_x max_y : Z) : Grid :=
  map (fun _ => map (fun _ => " ") (Py.range (max_x + 1)))
      (Py.range (max_y + 1)).

Definition arrange_chars_into_grid
    (characters : list entry) (x_scale y_scale : Z) : result Grid :=
  match characters with
  | [] => Ok []
  | _ =>
      max_x ← max_x characters;
      max_y ← max_y characters;
      let grid := blank_grid max_x max_y in
      populate grid characters
  end.

Definition print_grid (grid : Grid) : io unit :=
  for_ (reverse grid) (fun row => print (Py.join "" row)).

Definition extract_secret_message_from_doc (url : string) : io unit :=
  html ← fetch_and_parse_doc url;
  match html with
  | None | Some EmptyString => mret tt
  | Some html =>
      characters ← parse_table_characters html;
      match characters with
      | [] => print "No characters found in the document."
      | _ =>
          grid ← lift (arrange_chars_into_grid characters 6 13);
          print_grid grid
      end
  end.

End Pipeline.


(** ** Vocabulary of the properties *)

(** The indices a list of length [len] accepts. *)
Definition in_range (len : nat) (i : Z) : Prop :=
  - Z.of_nat len <= i < Z.of_nat len.

(** A grid of [h] rows of [w] cells each. *)
Definition rect (h w : nat) (g : Grid) : Prop :=
  length g = h /\ Forall (fun row => length row = w) g.

(** The cell at row position [r], column position [c], if there is one. *)
Definition cell (g : Grid) (r c : nat) : option string :=
  row ← g !! r; row !! c.

(** [grid[y][x]] *)
Definition getcell (g : Grid) (y x : Z) : result string :=
  row ← Py.getitem g y; Py.getitem row x.

(** The cell an entry is written to in a grid of [h] rows and [w]
    columns: its coordinates as list indices. *)
Definition addresses (h w : nat) (e : entry) (r c : nat) : Prop :=
  let '(x, y, _) := e in
  Py.index h y = Ok r /\ Py.index w x = Ok c.

Definition nonneg (e : entry) : Prop :=
  let '(x, y, _) := e in 0 <= x /\ 0 <= y.

#[global] Instance nonneg_dec (e : entry) : Decision (nonneg e).
Proof. destruct e as [[x y] ch]. unfold nonneg. apply _. Defined.

(** An entry whose coordinates a grid of [h] rows and [w] columns accepts. *)
Definition placeable (h w : nat) (e : entry) : Prop :=
  let '(x, y, _) := e in in_range h y /\ in_range w x.

(** The coordinates and the character of an entry. *)
Definition coords (e : entry) : Z * Z := let '(x, y, _) := e in (x, y).

Definition glyph (e : entry) : string := let '(_, _, ch) := e in ch.

(** An entry whose coordinates are not below what wraps around in a grid
    built for the maxima [mx] and [my]. *)
Definition wraps_within (mx my : Z) (e : entry) : Prop :=
  let '(x, y, _) := e in - (mx + 1) <= x /\ - (my + 1) <= y.

(** Two entries whose coordinates index the same cell of a grid of [h]
    rows and [w] columns. *)
Definition same_cell (h w : nat) (e e' : entry) : Prop :=
  let '(x, y, _) := e in
  let '(x', y', _) := e' in
  Py.index h y = Py.index h y' /\ Py.index w x = Py.index w x'.

(** What a table row contributes, in the words of the parser's contract:
    with at least three cells, cells 0 and 2 integers once trimmed and
    cell 1 not blank once trimmed, the entry; otherwise nothing. *)
Definition row_entry (row : node) : option entry :=
  match Soup.find_all ["td"; "th"] row with
  | c0 :: c1 :: c2 :: _ =>
      match Py.int (Py.strip (Soup.get_text c0)),
            Py.int (Py.strip (Soup.get_text c2)) with
      | Ok x, Ok y =>
          let char := Py.strip (Soup.get_text c1) in
          if bool_decide (char = "") then None else Some (x, y, char)
      | _, _ => None
      end
  | _ => None
  end.

(** The request failed with description [err]: [requests.get] raised, or
    the status made [raise_for_status] raise. *)
Definition fetch_fails (requests_get : string -> result Response)
    (url err : string) : Prop :=
  requests_get url = Raise (RequestException err) \/
  exists response,
    requests_get url = Ok response /\
    400 <= status_code response < 600 /\
    err = http_error_msg response.

(** The request succeeded with body [body]. *)
Definition fetch_succeeds (requests_get : string -> result Response)
    (url body : string) : Prop :=
  exists response,
    requests_get url = Ok response /\
    ~ 400 <= status_code response < 600 /\
    body = text response.

(** ** Sample documents *)

(** A [<tr>] of [<td>] cells holding the given texts. *)
Definition table_row (cells : list string) : node :=
  Tag "tr" (map (fun s => Tag "td" [NavigableString s]) cells).

(** The document of the scenario with a header and the rows
    [(0, "A", 1)], [(1, "B", 1)], [(0, "C", 0)]. *)
Definition sample_doc : node :=
  Tag "[document]"
    [Tag "table"
       [table_row ["x-coordinate"; "Character"; "y-coordinate"];
        table_row ["0"; "A"; "1"];
        table_row ["1"; "B"; "1"];
        table_row ["0"; "C"; "0"]]].

(** A table with a header and the rows [(0, "A", 0)] and [(-2, "B", 0)]:
    [<table><tr><td>x-coordinate</td><td>Character</td><td>y-coordinate</td></tr>
     <tr><td>0</td><td>A</td><td>0</td></tr>
     <tr><td>-2</td><td>B</td><td>0</td></tr></table>] *)
Definition negative_doc : node :=
  Tag "[document]"
    [Tag "table"
       [table_row ["x-coordinate"; "Character"; "y-coordinate"];
        table_row ["0"; "A"; "0"];
        table_row ["-2"; "B"; "0"]]].

(** A document of text only. *)
Definition text_doc (s : string) : node :=
  Tag "[document]" [NavigableString s].

Definition sample_html : string :=
  "<table><tr><td>x-coordinate</td><td>Character</td><td>y-coordinate</td></tr><tr><td>0</td><td>A</td><td>1</td></tr><tr><td>1</td><td>B</td><td>1</td></tr><tr><td>0</td><td>C</td><td>0</td></tr></table>".

Definition negative_html : string :=
  "<table><tr><td>x-coordinate</td><td>Character</td><td>y-coordinate</td></tr><tr><td>0</td><td>A</td><td>0</td></tr><tr><td>-2</td><td>B</td><td>0</td></tr></table>".

(** The parser on the sample markups; any other markup is read as text,
    which is what the parser makes of markup without tags. *)
Definition sample_bs (markup : string) : node :=
  if decide (markup = sample_html) then sample_doc
  else if decide (markup = negative_html) then negative_doc
  else text_doc markup.

(** A server answering every request with status 200 and the given body. *)
Definition serve (body : string) (url : string) : result Response :=
  Ok {| status_code := 200; text := body; http_error_msg := "" |}.

(** A server answering every request with status 404. *)
Definition not_found (url : string) : result Response :=
  Ok {| status_code := 404; text := "";
        http_error_msg := "404 Client Error: Not Found for url: " ++ url |}.

(** ** Python indexing *)

Lemma index_Ok (len : nat) (i : Z) (k : nat) :
  Py.index len i = Ok k <->
  (0 <= i < Z.of_nat len /\ k = Z.to_nat i) \/
  (- Z.of_nat len <= i < 0 /\ k = Z.to_nat (i + Z.of_nat len)).
Proof.
  unfold Py.index. cbv zeta.
  destruct (Z.ltb_spec i 0) as [Hi|Hi].
  - destruct (Z.leb_spec 0 (i + Z.of_nat len)) as [H0|H0];
      destruct (Z.ltb_spec (i + Z.of_nat len) (Z.of_nat len)) as [H1|H1]; simpl;
      (split;
       [ intros H; first [discriminate | injection H as <-; lia]
       | intros [[? ->] | [? ->]]; first [reflexivity | lia] ]).
  - destruct (Z.leb_spec 0 i) as [H0|H0];
      destruct (Z.ltb_spec i (Z.of_nat len)) as [H1|H1]; simpl;
      (split;
       [ intros H; first [discriminate | injection H as <-; lia]
       | intros [[? ->] | [? ->]]; first [reflexivity | lia] ]).
Qed.

Lemma index_lt (len : nat) (i : Z) (k : nat) :
  Py.index len i = Ok k -> (k < len)%nat.
Proof. rewrite index_Ok. lia. Qed.

Lemma index_in_range (len : nat) (i : Z) :
  in_range len i <-> exists k, Py.index len i = Ok k.
Proof.
  unfold in_range. split.
  - intros H. destruct (Z.lt_ge_cases i 0).
    + exists (Z.to_nat (i + Z.of_nat len)). apply index_Ok. lia.
    + exists (Z.to_nat i). apply index_Ok. lia.
  - intros [k Hk]. apply index_Ok in Hk. lia.
Qed.

Lemma index_Raise (len : nat) (i : Z) :
  ~ in_range len i -> Py.index len i = Raise IndexError.
Proof.
  intros H. destruct (Py.index len i) as [k|e] eqn:E.
  - exfalso. apply H, index_in_range. eauto.
  - revert E. unfold Py.index. case_match; congruence.
Qed.

Lemma index_nonneg (len : nat) (i : Z) :
  0 <= i < Z.of_nat len -> Py.index len i = Ok (Z.to_nat i).
Proof. intros. apply index_Ok. lia. Qed.

Lemma getitem_lookup {A} (l : list A) (i : Z) (a : A) :
  0 <= i -> l !! Z.to_nat i = Some a -> Py.getitem l i = Ok a.
Proof.
  intros Hi Hl. unfold Py.getitem.
  rewrite index_nonneg by (apply lookup_lt_Some in Hl; lia).
  simpl. by rewrite Hl.
Qed.

Lemma foldl_max_spec (l : list Z) (a : Z) :
  (foldl Z.max a l = a \/ foldl Z.max a l ∈ l) /\
  a <= foldl Z.max a l /\
  forall x, x ∈ l -> x <= foldl Z.max a l.
Proof.
  revert a. induction l as [|b l IH]; intros a; simpl.
  - split; [by left|]. split; [lia|]. intros x Hx. inversion Hx.
  - destruct (IH (Z.max a b)) as (Hm & Hge & Hle). split; [|split].
    + destruct Hm as [Hm | Hm].
      * rewrite Hm. destruct (Z.max_spec a b) as [[_ ->] | [_ ->]].
        -- right. left.
        -- by left.
      * right. by right.
    + lia.
    + intros x [-> | Hx]%elem_of_cons; [lia | by apply Hle].
Qed.

Lemma max_spec (l : list Z) (m : Z) :
  Py.max l = Ok m -> m ∈ l /\ forall x, x ∈ l -> x <= m.
Proof.
  destruct l as [|a l]; [discriminate|]. simpl. intros [= <-].
  destruct (foldl_max_spec l a) as (Hm & Hge & Hle). split.
  - destruct Hm as [-> | Hm]; [left | by right].
  - intros x [-> | Hx]%elem_of_cons; [lia | by apply Hle].
Qed.

Lemma max_is_Ok (l : list Z) : l <> [] -> exists m, Py.max l = Ok m.
Proof. destruct l; [done | eauto]. Qed.

(** ** The grid and its population *)

Lemma range_length (n : Z) : length (Py.range n) = Z.to_nat n.
Proof. unfold Py.range. apply length_seqZ. Qed.

Lemma map_const_replicate {A B} (b : B) (l : list A) :
  map (fun _ => b) l = replicate (length l) b.
Proof. induction l; simpl; congruence. Qed.

Lemma blank_grid_replicate (mx my : Z) :
  blank_grid mx my =
  replicate (Z.to_nat (my + 1)) (replicate (Z.to_nat (mx + 1)) " ").
Proof.
  unfold blank_grid. by rewrite !map_const_replicate, !range_length.
Qed.

Lemma blank_grid_rect (mx my : Z) :
  rect (Z.to_nat (my + 1)) (Z.to_nat (mx + 1)) (blank_grid mx my).
Proof.
  rewrite blank_grid_replicate. split; [apply length_replicate|].
  apply Forall_replicate, length_replicate.
Qed.

Lemma blank_grid_cell (mx my : Z) (r c : nat) :
  (r < Z.to_nat (my + 1))%nat -> (c < Z.to_nat (mx + 1))%nat ->
  cell (blank_grid mx my) r c = Some " ".
Proof.
  intros Hr Hc. unfold cell.
  rewrite blank_grid_replicate, lookup_replicate_2 by done. simpl.
  by apply lookup_replicate_2.
Qed.

Lemma rect_row (h w : nat) (g : Grid) (r : nat) (row : list string) :
  rect h w g -> g !! r = Some row -> length row = w.
Proof. intros [_ Hall] Hr. by eapply (Forall_lookup_1 _ _ _ _ Hall Hr). Qed.

Lemma rect_cell_is_Some (h w : nat) (g : Grid) (r c : nat) :
  rect h w g -> (r < h)%nat -> (c < w)%nat -> is_Some (cell g r c).
Proof.
  intros Hg Hr Hc. unfold cell.
  destruct (lookup_lt_is_Some_2 g r) as [row Hrow]; [by rewrite (proj1 Hg)|].
  rewrite Hrow. simpl. apply lookup_lt_is_Some_2.
  by rewrite (rect_row _ _ _ _ _ Hg Hrow).
Qed.

(** One assignment [grid[y][x] = char] that does not raise: it keeps the
    shape and changes the addressed cell only. *)
Lemma place_Ok (h w : nat) (g g' : Grid) (x y : Z) (ch : string) :
  rect h w g -> place g (x, y, ch) = Ok g' ->
  exists r c,
    addresses h w (x, y, ch) r c /\ rect h w g' /\
    forall r' c',
      cell g' r' c' =
      if decide (r' = r /\ c' = c) then Some ch else cell g r' c'.
Proof.
  intros Hg. pose proof Hg as [Hlen Hall].
  unfold place, Py.getitem, Py.setitem.
  destruct (Py.index (length g) y) as [r|] eqn:Er; simpl; [|discriminate].
  pose proof (index_lt _ _ _ Er) as Hr.
  destruct (lookup_lt_is_Some_2 g r Hr) as [row Hrow]. rewrite Hrow. simpl.
  pose proof (rect_row _ _ _ _ _ Hg Hrow) as Hw.
  destruct (Py.index (length row) x) as [c|] eqn:Ec; simpl; [|discriminate].
  pose proof (index_lt _ _ _ Ec) as Hc.
  intros [= <-]. exists r, c. split; [|split].
  - simpl. by rewrite <- Hlen, <- Hw.
  - split; [by rewrite length_insert|].
    apply Forall_insert; [done|]. by rewrite length_insert.
  - intros r' c'. unfold cell. destruct (decide (r' = r)) as [->|Hne].
    + rewrite list_lookup_insert_eq by done. simpl.
      destruct (decide (c' = c)) as [->|Hne].
      * rewrite decide_True by done. by apply list_lookup_insert_eq.
      * rewrite decide_False by tauto. rewrite Hrow. simpl.
        by apply list_lookup_insert_ne.
    + rewrite decide_False by tauto. by rewrite list_lookup_insert_ne.
Qed.

(** Whether it raises is decided by the coordinates alone, and the only
    exception is [IndexError]. *)
Lemma place_cases (h w : nat) (g : Grid) (e : entry) :
  rect h w g ->
  (placeable h w e /\ exists g', place g e = Ok g') \/
  (~ placeable h w e /\ place g e = Raise IndexError).
Proof.
  intros Hg. pose proof Hg as [Hlen Hall]. destruct e as [[x y] ch].
  unfold placeable, place, Py.getitem, Py.setitem.
  destruct (Py.index (length g) y) as [r|] eqn:Er; simpl.
  - pose proof (index_lt _ _ _ Er) as Hr.
    destruct (lookup_lt_is_Some_2 g r Hr) as [row Hrow]. rewrite Hrow. simpl.
    pose proof (rect_row _ _ _ _ _ Hg Hrow) as Hw.
    assert (in_range h y) as Hy by (apply index_in_range; rewrite <- Hlen; eauto).
    destruct (Py.index (length row) x) as [c|] eqn:Ec; simpl.
    + left. split; [|eauto]. split; [done|].
      apply index_in_range. rewrite <- Hw. eauto.
    + right. assert (~ in_range w x) as Hx.
      { rewrite index_in_range, <- Hw, Ec. by intros [k ?]. }
      split; [tauto|]. rewrite index_Raise in Ec by by rewrite Hw.
      congruence.
  - right. assert (~ in_range h y) as Hy.
    { rewrite index_in_range, <- Hlen, Er. by intros [k ?]. }
    split; [tauto|]. rewrite index_Raise in Er by by rewrite Hlen.
    congruence.
Qed.

Arguments place : simpl never.

Lemma populate_app (g : Grid) (l1 l2 : list entry) :
  populate g (l1 ++ l2) = (g' ← populate g l1; populate g' l2).
Proof.
  revert g. induction l1 as [|e l1 IH]; intros g; simpl; [done|].
  destruct (place g e) as [g1|]; simpl; [apply IH | done].
Qed.

Lemma populate_rect (h w : nat) (cs : list entry) (g g' : Grid) :
  rect h w g -> populate g cs = Ok g' -> rect h w g'.
Proof.
  revert g. induction cs as [|[[x y] ch] cs IH]; intros g Hg; simpl.
  - by intros [= <-].
  - destruct (place g (x, y, ch)) as [g1|] eqn:E; simpl; [|discriminate].
    destruct (place_Ok _ _ _ _ _ _ _ Hg E) as (r & c & _ & Hg1 & _).
    by apply IH.
Qed.

(** The loop raises exactly when some entry is not placeable. *)
Lemma populate_cases (h w : nat) (cs : list entry) (g : Grid) :
  rect h w g ->
  (Forall (placeable h w) cs /\ exists g', populate g cs = Ok g') \/
  (~ Forall (placeable h w) cs /\ populate g cs = Raise IndexError).
Proof.
  revert g. induction cs as [|e cs IH]; intros g Hg; simpl.
  - left. split; [constructor | eauto].
  - destruct (place_cases h w g e Hg) as [[He [g1 E]] | [He E]]; rewrite E; simpl.
    + assert (rect h w g1) as Hg1.
      { destruct e as [[x y] ch].
        by destruct (place_Ok _ _ _ _ _ _ _ Hg E) as (? & ? & _ & ? & _). }
      destruct (IH g1 Hg1) as [[Hcs Hok] | [Hcs Hraise]].
      * left. split; [by constructor | done].
      * right. split; [|done]. intros Hall. apply Hcs.
        by apply Forall_cons_1 in Hall as [_ ?].
    + right. split; [|done]. intros Hall. apply He.
      by apply Forall_cons_1 in Hall as [? _].
Qed.

(** A cell no entry addresses is left as it was. *)
Lemma populate_untouched (h w : nat) (cs : list entry) (g g' : Grid) (r c : nat) :
  rect h w g -> populate g cs = Ok g' ->
  (forall e, e ∈ cs -> ~ addresses h w e r c) ->
  cell g' r c = cell g r c.
Proof.
  revert g. induction cs as [|[[x y] ch] cs IH]; intros g Hg; simpl.
  - by intros [= <-].
  - destruct (place g (x, y, ch)) as [g1|] eqn:E; simpl; [|discriminate].
    intros Hpop Hno.
    destruct (place_Ok _ _ _ _ _ _ _ Hg E) as (r1 & c1 & Haddr & Hg1 & Hcell).
    rewrite (IH g1 Hg1 Hpop) by (intros e He; apply Hno; by right).
    rewrite Hcell. rewrite decide_False; [done|].
    intros [-> ->]. apply (Hno (x, y, ch)); [left | done].
Qed.

(** The cell an entry addresses holds its character at the end, unless
    a later entry addresses the same cell. *)
Lemma populate_written (h w : nat) (cs : list entry) (g g' : Grid)
    (i : nat) (x y : Z) (ch : string) (r c : nat) :
  rect h w g -> populate g cs = Ok g' ->
  cs !! i = Some (x, y, ch) -> addresses h w (x, y, ch) r c ->
  (forall j e, (i < j)%nat -> cs !! j = Some e -> ~ addresses h w e r c) ->
  cell g' r c = Some ch.
Proof.
  revert g i. induction cs as [|e cs IH]; intros g i Hg; simpl; [done|].
  destruct (place g e) as [g1|] eqn:E; simpl; [|discriminate].
  intros Hpop Hi Haddr Hlater.
  assert (rect h w g1 /\
          forall r1 c1, addresses h w e r1 c1 ->
            cell g1 r1 c1 = Some (e.2)) as [Hg1 Hcell].
  { destruct e as [[x1 y1] ch1].
    destruct (place_Ok _ _ _ _ _ _ _ Hg E) as (r1 & c1 & [Ha1 Ha2] & ? & Hc).
    split; [done|]. intros r2 c2 [Hb1 Hb2]. rewrite Hc.
    rewrite decide_True; [done|]. split; congruence. }
  destruct i as [|i]; simpl in Hi.
  - injection Hi as ->.
    rewrite (populate_untouched h w cs g1 g' r c Hg1 Hpop).
    + by apply Hcell.
    + intros e [j Hj]%list_elem_of_lookup.
      apply (Hlater (S j)); [lia | done].
  - apply (IH g1 i Hg1 Hpop Hi Haddr).
    intros j e' Hj He'. apply (Hlater (S j)); [lia | done].
Qed.

(** ** The Grid Builder *)

Lemma max_x_spec (cs : list entry) (mx : Z) :
  max_x cs = Ok mx ->
  (exists y ch, (mx, y, ch) ∈ cs) /\
  forall x y ch, (x, y, ch) ∈ cs -> x <= mx.
Proof.
  intros [Hin Hle]%max_spec. split.
  - apply list_elem_of_fmap in Hin as ([[x y] ch] & -> & Hin). eauto.
  - intros x y ch Hxy. apply Hle.
    apply list_elem_of_fmap. by exists (x, y, ch).
Qed.

Lemma max_y_spec (cs : list entry) (my : Z) :
  max_y cs = Ok my ->
  (exists x ch, (x, my, ch) ∈ cs) /\
  forall x y ch, (x, y, ch) ∈ cs -> y <= my.
Proof.
  intros [Hin Hle]%max_spec. split.
  - apply list_elem_of_fmap in Hin as ([[x y] ch] & -> & Hin). eauto.
  - intros x y ch Hxy. apply Hle.
    apply list_elem_of_fmap. by exists (x, y, ch).
Qed.

Lemma maxima_is_Ok (cs : list entry) :
  cs <> [] -> exists mx my, max_x cs = Ok mx /\ max_y cs = Ok my.
Proof. destruct cs; [done|]. intros _. by eexists _, _. Qed.

Lemma arrange_unfold (cs : list entry) (xs ys mx my : Z) :
  cs <> [] -> max_x cs = Ok mx -> max_y cs = Ok my ->
  arrange_chars_into_grid cs xs ys = populate (blank_grid mx my) cs.
Proof.
  intros Hne Hx Hy. unfold arrange_chars_into_grid.
  destruct cs; [done|]. by rewrite Hx, Hy.
Qed.

(** The builder returns a grid of the shape the maxima give, or raises
    [IndexError]; which of the two is decided by the coordinates. *)
Lemma arrange_cases (cs : list entry) (xs ys mx my : Z) :
  cs <> [] -> max_x cs = Ok mx -> max_y cs = Ok my ->
  let h := Z.to_nat (my + 1) in
  let w := Z.to_nat (mx + 1) in
  (Forall (placeable h w) cs /\
   exists g, arrange_chars_into_grid cs xs ys = Ok g /\ rect h w g) \/
  (~ Forall (placeable h w) cs /\
   arrange_chars_into_grid cs xs ys = Raise IndexError).
Proof.
  intros Hne Hx Hy h w. rewrite (arrange_unfold cs xs ys mx my) by done.
  destruct (populate_cases h w cs (blank_grid mx my) (blank_grid_rect mx my))
    as [[Hall [g Hg]] | [Hall Hraise]].
  - left. split; [done|]. exists g. split; [done|].
    exact (populate_rect h w cs _ g (blank_grid_rect mx my) Hg).
  - by right.
Qed.

(** When the builder returns a grid, both maxima are non-negative. *)
Lemma arrange_Ok_maxima (cs : list entry) (xs ys mx my : Z) (g : Grid) :
  cs <> [] -> max_x cs = Ok mx -> max_y cs = Ok my ->
  arrange_chars_into_grid cs xs ys = Ok g ->
  0 <= mx /\ 0 <= my /\ rect (Z.to_nat (my + 1)) (Z.to_nat (mx + 1)) g /\
  Forall (placeable (Z.to_nat (my + 1)) (Z.to_nat (mx + 1))) cs.
Proof.
  intros Hne Hx Hy Hg.
  destruct (arrange_cases cs xs ys mx my Hne Hx Hy)
    as [[Hall (g' & Hg' & Hrect)] | [_ Hraise]]; [|congruence].
  assert (g' = g) as -> by congruence.
  rewrite Forall_forall in Hall.
  destruct (max_x_spec cs mx Hx) as [(y0 & c0 & Hin0) _].
  destruct (max_y_spec cs my Hy) as [(x1 & c1 & Hin1) _].
  pose proof (Hall _ Hin0) as [_ H0]. pose proof (Hall _ Hin1) as [H1 _].
  unfold in_range in *. split; [lia|]. split; [lia|]. split; [done|].
  by apply Forall_forall.
Qed.

Lemma nonneg_placeable (cs : list entry) (mx my : Z) :
  max_x cs = Ok mx -> max_y cs = Ok my ->
  Forall nonneg cs ->
  Forall (placeable (Z.to_nat (my + 1)) (Z.to_nat (mx + 1))) cs.
Proof.
  intros Hx Hy. rewrite !Forall_forall. intros Hnn [[x y] ch] Hin.
  pose proof (Hnn _ Hin) as [H0x H0y].
  pose proof (proj2 (max_x_spec cs mx Hx) x y ch Hin).
  pose proof (proj2 (max_y_spec cs my Hy) x y ch Hin).
  unfold placeable, in_range. lia.
Qed.

Lemma arrange_nonneg (cs : list entry) (xs ys : Z) :
  Forall nonneg cs -> exists g, arrange_chars_into_grid cs xs ys = Ok g.
Proof.
  intros Hnn. destruct (decide (cs = [])) as [->|Hne]; [by exists []|].
  destruct (maxima_is_Ok cs Hne) as (mx & my & Hx & Hy).
  destruct (arrange_cases cs xs ys mx my Hne Hx Hy)
    as [[_ (g & Hg & _)] | [Hall _]]; [eauto|].
  destruct Hall. by apply nonneg_placeable.
Qed.

Lemma addresses_nonneg (h w : nat) (x y : Z) (ch : string) (r c : nat) :
  0 <= x -> 0 <= y ->
  addresses h w (x, y, ch) r c <->
  (y < Z.of_nat h /\ x < Z.of_nat w) /\ r = Z.to_nat y /\ c = Z.to_nat x.
Proof. intros Hx Hy. unfold addresses. rewrite !index_Ok. lia. Qed.

Lemma getcell_cell (h w : nat) (g : Grid) (x y : Z) (ch v : string) (r c : nat) :
  rect h w g -> addresses h w (x, y, ch) r c ->
  cell g r c = Some v -> getcell g y x = Ok v.
Proof.
  intros Hg [Hr Hc]. unfold cell, getcell, Py.getitem.
  rewrite (proj1 Hg), Hr. simpl.
  destruct (g !! r) as [row|] eqn:Hrow; simpl; [|done].
  rewrite (rect_row _ _ _ _ _ Hg Hrow), Hc. simpl. by intros ->.
Qed.

(** The cells of the grid the builder returns: the last entry addressing a
    cell decides it, a cell no entry addresses is blank. *)
Lemma arrange_cells (cs : list entry) (xs ys mx my : Z) (g : Grid) :
  max_x cs = Ok mx -> max_y cs = Ok my ->
  arrange_chars_into_grid cs xs ys = Ok g ->
  let h := Z.to_nat (my + 1) in
  let w := Z.to_nat (mx + 1) in
  (forall i x y ch r c,
      cs !! i = Some (x, y, ch) -> addresses h w (x, y, ch) r c ->
      (forall j e, (i < j)%nat -> cs !! j = Some e -> ~ addresses h w e r c) ->
      cell g r c = Some ch) /\
  (forall r c,
      (r < h)%nat -> (c < w)%nat ->
      (forall e, e ∈ cs -> ~ addresses h w e r c) ->
      cell g r c = Some " ").
Proof.
  intros Hx Hy Hg h w.
  assert (cs <> []) as Hne by (intros ->; discriminate).
  rewrite (arrange_unfold cs xs ys mx my) in Hg by done.
  pose proof (blank_grid_rect mx my) as Hb. split.
  - intros i x y ch r c Hi Haddr Hlater.
    by apply (populate_written h w cs _ g i x y ch r c Hb Hg).
  - intros r c Hr Hc Hno.
    rewrite (populate_untouched h w cs _ g r c Hb Hg Hno).
    by apply blank_grid_cell.
Qed.

(** ** The claims about the Grid Builder *)

(** C9. The [x_scale] and [y_scale] parameters have no effect: for every
    entry list, [arrange_chars_into_grid] returns the same result whatever
    the two scales are. *)
Theorem arrange_ignores_scales (cs : list entry) (xs1 ys1 xs2 ys2 : Z) :
  arrange_chars_into_grid cs xs1 ys1 = arrange_chars_into_grid cs xs2 ys2.
Proof. destruct cs; reflexivity. Qed.

(** C3, as stated, fails: the builder returns a grid for
    [(-1, 0, "c"); (0, 0, "d")], whose maxima are both [0], and the first
    entry has [x = -1 < 0]. *)
Lemma entry_below_bounds :
  let cs := [(-1, 0, "c"); (0, 0, "d")] in
  arrange_chars_into_grid cs 6 13 = Ok [["d"]] /\
  max_x cs = Ok 0 /\ max_y cs = Ok 0 /\
  (-1, 0, "c") ∈ cs /\
  ~ (0 <= 0 <= 0 /\ 0 <= -1 <= 0).
Proof.
  simpl. split; [reflexivity|]. split; [reflexivity|]. split; [reflexivity|].
  split; [left | lia].
Qed.

(** C3 (amended). Every entry of the list is at or below both maxima,
    [x <= max_x] and [y <= max_y]. When moreover all coordinates of the
    list are non-negative, the entry lies within the grid built from the
    list: the builder returns a grid, [0 <= y <= max_y], [0 <= x <= max_x],
    and row [y] exists and has a column [x]. *)
Theorem entries_within_bounds
    (cs : list entry) (xs ys : Z) (x y : Z) (ch : string) :
  (x, y, ch) ∈ cs ->
  exists mx my,
    max_x cs = Ok mx /\ max_y cs = Ok my /\ x <= mx /\ y <= my /\
    (Forall nonneg cs ->
     0 <= x /\ 0 <= y /\
     exists g row,
       arrange_chars_into_grid cs xs ys = Ok g /\
       Z.of_nat (length g) = my + 1 /\
       g !! Z.to_nat y = Some row /\
       Z.of_nat (length row) = mx + 1).
Proof.
  intros Hin.
  assert (cs <> []) as Hne by (intros ->; inversion Hin).
  destruct (maxima_is_Ok cs Hne) as (mx & my & Hx & Hy).
  exists mx, my. split; [done|]. split; [done|].
  pose proof (proj2 (max_x_spec cs mx Hx) x y ch Hin) as Hxle.
  pose proof (proj2 (max_y_spec cs my Hy) x y ch Hin) as Hyle.
  split; [done|]. split; [done|]. intros Hnn.
  pose proof (proj1 (Forall_forall _ _) Hnn _ Hin) as [H0x H0y].
  split; [done|]. split; [done|].
  destruct (arrange_nonneg cs xs ys Hnn) as [g Hg].
  destruct (arrange_Ok_maxima cs xs ys mx my g Hne Hx Hy Hg)
    as (_ & _ & Hrect & _).
  destruct (lookup_lt_is_Some_2 g (Z.to_nat y)) as [row Hrow].
  { rewrite (proj1 Hrect). lia. }
  exists g, row. split; [done|]. split; [rewrite (proj1 Hrect); lia|].
  split; [done|]. rewrite (rect_row _ _ _ _ _ Hrect Hrow). lia.
Qed.

(** The scenario's entries: [(1, 1, "B")] is one of them. *)
Lemma entries_within_bounds_witness :
  exists mx my,
    max_x [(0, 1, "A"); (1, 1, "B"); (0, 0, "C")] = Ok mx /\
    max_y [(0, 1, "A"); (1, 1, "B"); (0, 0, "C")] = Ok my /\
    1 <= mx /\ 1 <= my /\
    (Forall nonneg [(0, 1, "A"); (1, 1, "B"); (0, 0, "C")] ->
     0 <= 1 /\ 0 <= 1 /\
     exists g row,
       arrange_chars_into_grid [(0, 1, "A"); (1, 1, "B"); (0, 0, "C")] 6 13
         = Ok g /\
       Z.of_nat (length g) = my + 1 /\
       g !! Z.to_nat 1 = Some row /\
       Z.of_nat (length row) = mx + 1).
Proof.
  apply (entries_within_bounds
           [(0, 1, "A"); (1, 1, "B"); (0, 0, "C")] 6 13 1 1 "B").
  right. left.
Defined.

(** C4, as stated, fails: [(-2, 0, "a")] is a non-empty list on which the
    builder raises [IndexError] and returns no grid; the grid it had
    allocated has one row of no cells, not of [max_x + 1 = -1] cells. *)
Lemma no_grid_for_negative_maximum :
  let cs := [(-2, 0, "a")] in
  cs <> [] /\ max_x cs = Ok (-2) /\ max_y cs = Ok 0 /\
  blank_grid (-2) 0 = [[]] /\
  arrange_chars_into_grid cs 6 13 = Raise IndexError /\
  ~ exists g, arrange_chars_into_grid cs 6 13 = Ok g /\
              Z.of_nat (length g) = 0 + 1 /\
              Forall (fun row => Z.of_nat (length row) = -2 + 1) g.
Proof.
  simpl. split; [done|]. do 4 (split; [reflexivity|]).
  intros (g & Hg & _). vm_compute in Hg. discriminate.
Qed.

(** C4 (amended). The empty list gives the empty grid, of zero rows.
    Whenever the builder returns a grid for a non-empty list, that grid has
    exactly [max_y + 1] rows and every row has exactly [max_x + 1] columns,
    the maxima being taken independently over the entries; and it does
    return a grid for every list whose coordinates are all non-negative. *)
Theorem grid_dimensions (xs ys : Z) :
  arrange_chars_into_grid [] xs ys = Ok [] /\
  (forall cs g,
      cs <> [] -> arrange_chars_into_grid cs xs ys = Ok g ->
      exists mx my,
        max_x cs = Ok mx /\ max_y cs = Ok my /\
        Z.of_nat (length g) = my + 1 /\
        Forall (fun row => Z.of_nat (length row) = mx + 1) g) /\
  (forall cs, Forall nonneg cs ->
      exists g, arrange_chars_into_grid cs xs ys = Ok g).
Proof.
  split; [reflexivity|]. split; [|intros cs; apply arrange_nonneg].
  intros cs g Hne Hg.
  destruct (maxima_is_Ok cs Hne) as (mx & my & Hx & Hy).
  destruct (arrange_Ok_maxima cs xs ys mx my g Hne Hx Hy Hg)
    as (H0x & H0y & [Hlen Hrows] & _).
  exists mx, my. split; [done|]. split; [done|]. split; [lia|].
  eapply Forall_impl; [exact Hrows|]. simpl. intros row ->. lia.
Qed.

(** The scenario's entries give a grid of two rows of two cells. *)
Lemma grid_dimensions_witness :
  exists mx my,
    max_x [(0, 1, "A"); (1, 1, "B"); (0, 0, "C")] = Ok mx /\
    max_y [(0, 1, "A"); (1, 1, "B"); (0, 0, "C")] = Ok my /\
    Z.of_nat (length [["C"; " "]; ["A"; "B"]]) = my + 1 /\
    Forall (fun row => Z.of_nat (length row) = mx + 1)
           [["C"; " "]; ["A"; "B"]].
Proof.
  apply (proj1 (proj2 (grid_dimensions 6 13))
           [(0, 1, "A"); (1, 1, "B"); (0, 0, "C")]).
  - discriminate.
  - reflexivity.
Defined.

(** C5, as stated, fails in both halves once a coordinate is negative.
    In the grid built from [(-1, 0, "c"); (0, 0, "d")] the cell
    [grid[0][-1]] holds ["d"], although no later entry has the coordinates
    [(-1, 0)]; in the grid built from [(1, 0, "d"); (-2, 0, "c")] the cell
    at row 0, column 0 holds ["c"], although no entry has the coordinates
    [(0, 0)]. *)
Lemma cell_of_negative_coordinate :
  (exists g,
      arrange_chars_into_grid [(-1, 0, "c"); (0, 0, "d")] 6 13 = Ok g /\
      getcell g 0 (-1) = Ok "d" /\
      (forall ch, (-1, 0, ch) ∉ [(0, 0, "d")])) /\
  (exists g,
      arrange_chars_into_grid [(1, 0, "d"); (-2, 0, "c")] 6 13 = Ok g /\
      cell g 0 0 = Some "c" /\
      (forall ch, (0, 0, ch) ∉ [(1, 0, "d"); (-2, 0, "c")])).
Proof.
  split.
  - exists [["d"]]. split; [reflexivity|]. split; [reflexivity|].
    intros ch H.
    repeat (apply elem_of_cons in H as [H | H]; [discriminate H|]).
    inversion H.
  - exists [["c"; "d"]]. split; [reflexivity|]. split; [reflexivity|].
    intros ch H.
    repeat (apply elem_of_cons in H as [H | H]; [discriminate H|]).
    inversion H.
Qed.

(** C5 (amended). For every entry list whose coordinates are all
    non-negative the builder returns a grid in which, for every entry
    [(x, y, c)] of the list, the cell at row [y], column [x] equals [c]
    unless a later entry has the same coordinates, so that the last entry
    with given coordinates decides the cell; and every cell whose
    coordinates no entry has holds the blank [" "]. *)
Theorem cells_last_write_wins (cs : list entry) (xs ys : Z) :
  Forall nonneg cs ->
  exists g,
    arrange_chars_into_grid cs xs ys = Ok g /\
    (forall i x y ch,
        cs !! i = Some (x, y, ch) ->
        (forall j ch', (i < j)%nat -> cs !! j <> Some (x, y, ch')) ->
        getcell g y x = Ok ch) /\
    (forall r c row,
        g !! r = Some row -> (c < length row)%nat ->
        (forall ch, (Z.of_nat c, Z.of_nat r, ch) ∉ cs) ->
        row !! c = Some " ").
Proof.
  intros Hnn. destruct (arrange_nonneg cs xs ys Hnn) as [g Hg]. exists g.
  split; [done|].
  destruct (decide (cs = [])) as [->|Hne].
  { injection Hg as <-. split; [intros i ? ? ? Hi | intros r c row Hr];
      by rewrite lookup_nil in *. }
  destruct (maxima_is_Ok cs Hne) as (mx & my & Hx & Hy).
  destruct (arrange_Ok_maxima cs xs ys mx my g Hne Hx Hy Hg)
    as (H0x & H0y & Hrect & Hall).
  destruct (arrange_cells cs xs ys mx my g Hx Hy Hg) as [Hlast Hblank].
  rewrite Forall_forall in Hnn, Hall. split.
  - intros i x y ch Hi Hlater.
    pose proof (list_elem_of_lookup_2 _ _ _ Hi) as Hin.
    pose proof (Hnn _ Hin) as [Hx0 Hy0]. pose proof (Hall _ Hin) as [Hyr Hxr].
    assert (addresses (Z.to_nat (my + 1)) (Z.to_nat (mx + 1)) (x, y, ch)
              (Z.to_nat y) (Z.to_nat x)) as Haddr.
    { apply addresses_nonneg; [done..|]. unfold in_range in *. lia. }
    apply (getcell_cell _ _ g x y ch ch _ _ Hrect Haddr).
    apply (Hlast i x y ch _ _ Hi Haddr).
    intros j [[x' y'] ch'] Hj Hj' Haddr'.
    pose proof (Hnn _ (list_elem_of_lookup_2 _ _ _ Hj')) as [Hx0' Hy0'].
    apply addresses_nonneg in Haddr' as (_ & Hy' & Hx'); [|done..].
    apply (Hlater j ch' Hj). rewrite Hj'. do 2 f_equal. f_equal; lia.
  - intros r c row Hr Hc Hno.
    pose proof (lookup_lt_Some _ _ _ Hr) as Hrlt. rewrite (proj1 Hrect) in Hrlt.
    rewrite (rect_row _ _ _ _ _ Hrect Hr) in Hc.
    specialize (Hblank r c Hrlt Hc). unfold cell in Hblank.
    rewrite Hr in Hblank. simpl in Hblank. apply Hblank.
    intros [[x y] ch] Hin Haddr.
    pose proof (Hnn _ Hin) as [Hx0 Hy0].
    apply addresses_nonneg in Haddr as (_ & -> & ->); [|done..].
    apply (Hno ch). by rewrite !Z2Nat.id.
Qed.

(** Two entries at [(0, 0)]: the list has non-negative coordinates. *)
Lemma cells_last_write_wins_witness :
  exists g,
    arrange_chars_into_grid [(0, 0, "a"); (1, 0, "b"); (0, 0, "z")] 6 13
      = Ok g /\
    (forall i x y ch,
        [(0, 0, "a"); (1, 0, "b"); (0, 0, "z")] !! i = Some (x, y, ch) ->
        (forall j ch', (i < j)%nat ->
            [(0, 0, "a"); (1, 0, "b"); (0, 0, "z")] !! j <> Some (x, y, ch')) ->
        getcell g y x = Ok ch) /\
    (forall r c row,
        g !! r = Some row -> (c < length row)%nat ->
        (forall ch, (Z.of_nat c, Z.of_nat r, ch)
                      ∉ [(0, 0, "a"); (1, 0, "b"); (0, 0, "z")]) ->
        row !! c = Some " ").
Proof.
  apply (cells_last_write_wins [(0, 0, "a"); (1, 0, "b"); (0, 0, "z")] 6 13).
  repeat constructor; simpl; lia.
Defined.

(** C10, as stated, fails: [(0, 0, "a"); (-1, 0, "c"); (-2, 0, "d")]
    contains the entry [(-1, 0, "c")], its maxima are [max_x = 0 >= 0] and
    [max_y = 0], and the builder does not succeed: the third entry is
    outside the one-column row and raises [IndexError]. *)
Lemma wrapped_entry_does_not_make_success :
  let cs := [(0, 0, "a"); (-1, 0, "c"); (-2, 0, "d")] in
  (-1, 0, "c") ∈ cs /\
  max_x cs = Ok 0 /\ max_y cs = Ok 0 /\ 0 <= 0 <= 0 /\
  arrange_chars_into_grid cs 6 13 = Raise IndexError.
Proof.
  simpl. split; [right; left|]. do 2 (split; [reflexivity|]).
  split; [lia | reflexivity].
Qed.

(** C10 (amended). Take an entry list all of whose entries are within the
    index range of the grid, [-(max_x + 1) <= x] and [-(max_y + 1) <= y],
    and an entry [(-1, y, c)] of it with [0 <= y <= max_y] and
    [max_x >= 0]. Then the builder succeeds with a grid of [max_y + 1] rows
    and [max_x + 1] columns (nothing is rejected, the grid is not
    extended), the assignment for that entry writes [c] into the last
    column, index [max_x], of row [y], and the returned grid still holds
    [c] there unless a later entry is written to the same cell. *)
Theorem negative_x_wraps
    (cs : list entry) (xs ys mx my : Z) (i : nat) (y : Z) (ch : string) :
  max_x cs = Ok mx -> max_y cs = Ok my ->
  0 <= mx -> 0 <= y <= my ->
  cs !! i = Some (-1, y, ch) ->
  Forall (placeable (Z.to_nat (my + 1)) (Z.to_nat (mx + 1))) cs ->
  exists g_i g,
    populate (blank_grid mx my) (take (S i) cs) = Ok g_i /\
    cell g_i (Z.to_nat y) (Z.to_nat mx) = Some ch /\
    arrange_chars_into_grid cs xs ys = Ok g /\
    rect (Z.to_nat (my + 1)) (Z.to_nat (mx + 1)) g /\
    ((forall j e, (i < j)%nat -> cs !! j = Some e ->
        ~ addresses (Z.to_nat (my + 1)) (Z.to_nat (mx + 1)) e
            (Z.to_nat y) (Z.to_nat mx)) ->
     cell g (Z.to_nat y) (Z.to_nat mx) = Some ch).
Proof.
  intros Hx Hy Hmx Hyr Hi Hall.
  set (h := Z.to_nat (my + 1)) in *. set (w := Z.to_nat (mx + 1)) in *.
  assert (cs <> []) as Hne by (intros ->; by rewrite lookup_nil in Hi).
  pose proof (blank_grid_rect mx my) as Hb. fold h w in Hb.
  assert (addresses h w (-1, y, ch) (Z.to_nat y) (Z.to_nat mx)) as Haddr.
  { split; apply index_Ok; [left | right]; subst h w; split; lia. }
  destruct (populate_cases h w (take (S i) cs) _ Hb)
    as [[_ [g_i Hgi]] | [Hbad _]]; [|by destruct Hbad; apply Forall_take].
  pose proof (populate_rect h w _ _ g_i Hb Hgi) as Hri.
  destruct (populate_cases h w (drop (S i) cs) g_i Hri)
    as [[_ [g Hg]] | [Hbad _]]; [|by destruct Hbad; apply Forall_drop].
  assert (populate (blank_grid mx my) cs = Ok g) as Hpop.
  { rewrite <- (take_drop (S i) cs) at 1. rewrite populate_app, Hgi. exact Hg. }
  exists g_i, g. split; [done|]. split; [|split; [|split]].
  - apply (populate_written h w (take (S i) cs) _ g_i i (-1) y ch _ _ Hb Hgi);
      [|done|].
    + rewrite lookup_take_lt by lia. done.
    + intros j e Hj He. apply lookup_lt_Some in He.
      rewrite length_take in He. lia.
  - by rewrite (arrange_unfold cs xs ys mx my).
  - exact (populate_rect h w cs _ g Hb Hpop).
  - intros Hlater.
    by apply (populate_written h w cs _ g i (-1) y ch _ _ Hb Hpop).
Qed.

(** A two-column row: [-1] and [-2] are both within range. *)
Lemma negative_x_wraps_witness :
  exists g_i g,
    populate (blank_grid 1 0) (take 2 [(1, 0, "a"); (-1, 0, "c"); (-2, 0, "d")])
      = Ok g_i /\
    cell g_i (Z.to_nat 0) (Z.to_nat 1) = Some "c" /\
    arrange_chars_into_grid [(1, 0, "a"); (-1, 0, "c"); (-2, 0, "d")] 6 13
      = Ok g /\
    rect (Z.to_nat (0 + 1)) (Z.to_nat (1 + 1)) g /\
    ((forall j e, (1 < j)%nat ->
        [(1, 0, "a"); (-1, 0, "c"); (-2, 0, "d")] !! j = Some e ->
        ~ addresses (Z.to_nat (0 + 1)) (Z.to_nat (1 + 1)) e
            (Z.to_nat 0) (Z.to_nat 1)) ->
     cell g (Z.to_nat 0) (Z.to_nat 1) = Some "c").
Proof.
  apply (negative_x_wraps
           [(1, 0, "a"); (-1, 0, "c"); (-2, 0, "d")] 6 13 1 0 1%nat 0 "c").
  - reflexivity.
  - reflexivity.
  - lia.
  - lia.
  - reflexivity.
  - repeat constructor; unfold in_range; simpl; lia.
Defined.

(** ** The Renderer *)

Lemma for_print {A} (f : A -> string) (l : list A) (out : stdout) :
  for_ l (fun x => print (f x)) out = (Ok tt, (out ++ map f l)%list).
Proof.
  revert out. induction l as [|x l IH]; intros out; simpl.
  - by rewrite app_nil_r.
  - unfold mbind, io_bind, print at 1. rewrite IH.
    by rewrite <- app_assoc.
Qed.

Lemma append_empty_r (s : string) : (s ++ "")%string = s.
Proof. induction s as [|a s IH]; [done | by rewrite <- IH at 2]. Qed.

Lemma join_empty_sep (row : list string) :
  Py.join "" row = foldr String.append "" row.
Proof.
  induction row as [|s [|s' row] IH]; simpl in *.
  - done.
  - by rewrite append_empty_r.
  - rewrite IH. reflexivity.
Qed.

(** C6. [print_grid] prints one line per row, in reversed row order: the
    line printed for row index [i] is the [(len - 1 - i)]-th printed, so
    the last row comes first and row 0 last; each line is the
    concatenation of the row's cells from column 0 upward with nothing
    between them; the empty grid prints nothing. *)
Theorem print_grid_reversed_rows (g : Grid) (out : stdout) :
  print_grid g out = (Ok tt, (out ++ map (Py.join "") (reverse g))%list) /\
  length (map (Py.join "") (reverse g)) = length g /\
  (forall i row,
      g !! i = Some row ->
      map (Py.join "") (reverse g) !! (length g - 1 - i)%nat
        = Some (Py.join "" row)) /\
  (forall row, Py.join "" row = foldr String.append "" row) /\
  print_grid [] out = (Ok tt, out).
Proof.
  split; [apply for_print|]. split; [by rewrite length_map, length_reverse|].
  split; [|split; [apply join_empty_sep | reflexivity]].
  intros i row Hi. pose proof (lookup_lt_Some _ _ _ Hi) as Hlt.
  rewrite list_lookup_fmap, reverse_lookup by lia.
  replace (length g - S (length g - 1 - i))%nat with i by lia.
  by rewrite Hi.
Qed.

(** The scenario's grid prints ["AB"] and then ["C "]. *)
Lemma print_grid_reversed_rows_witness :
  print_grid [["C"; " "]; ["A"; "B"]] [] = (Ok tt, ["AB"; "C "]) /\
  map (Py.join "") (reverse [["C"; " "]; ["A"; "B"]]) !! 0%nat = Some "AB".
Proof.
  split.
  - exact (proj1 (print_grid_reversed_rows [["C"; " "]; ["A"; "B"]] [])).
  - apply (proj1 (proj2 (proj2
             (print_grid_reversed_rows [["C"; " "]; ["A"; "B"]] [])))
             1%nat ["A"; "B"]).
    reflexivity.
Defined.

(** ** The Table Parser *)

Lemma parse_row_spec (characters : list entry) (row : node) :
  parse_row characters row
  = Ok (characters ++ option_list (row_entry row))%list.
Proof.
  unfold parse_row, row_entry.
  destruct (Soup.find_all ["td"; "th"] row) as [|c0 [|c1 [|c2 cells]]];
    try (simpl; by rewrite app_nil_r).
  change (3 <=? length (c0 :: c1 :: c2 :: cells))%nat with true. cbv iota.
  rewrite (getitem_lookup _ 0 c0), (getitem_lookup _ 1 c1),
    (getitem_lookup _ 2 c2) by (reflexivity || lia).
  simpl.
  destruct (Py.int (Py.strip (Soup.get_text c0))) as [x|e0] eqn:E0; simpl.
  - destruct (Py.int (Py.strip (Soup.get_text c2))) as [y|e2] eqn:E2; simpl.
    + case_bool_decide; simpl; by rewrite ?app_nil_r.
    + assert (e2 = ValueError) as ->.
      { revert E2. unfold Py.int. repeat case_match; simpl; congruence. }
      by rewrite app_nil_r.
  - assert (e0 = ValueError) as ->.
    { revert E0. unfold Py.int. repeat case_match; simpl; congruence. }
    by rewrite app_nil_r.
Qed.

Lemma parse_rows_spec (rows : list node) (characters : list entry) :
  parse_rows rows characters = Ok (characters ++ omap row_entry rows)%list.
Proof.
  revert characters. induction rows as [|row rows IH]; intros characters; simpl.
  - by rewrite app_nil_r.
  - rewrite parse_row_spec. simpl. rewrite IH, <- app_assoc.
    by destruct (row_entry row).
Qed.

(** C7. When the markup has a table, [parse_table_characters] prints
    nothing and returns, in row order, the entries of the rows after the
    first; a row gives the entry [(x, y, char)] exactly when it has at least
    three cells, cells 0 and 2 parse as the integers [x] and [y] once
    trimmed, and cell 1, trimmed, is the non-empty [char]. Every other row
    is left out. *)
Theorem parse_table_rows
    (bs : string -> node) (table_str : string) (table : node) (out : stdout) :
  Soup.find "table" (bs table_str) = Some table ->
  parse_table_characters bs table_str out
  = (Ok (omap row_entry (drop 1 (Soup.find_all ["tr"] table))), out) /\
  forall row x y ch,
    row_entry row = Some (x, y, ch) <->
    exists c0 c1 c2,
      (3 <= length (Soup.find_all ["td"; "th"] row))%nat /\
      Soup.find_all ["td"; "th"] row !! 0%nat = Some c0 /\
      Soup.find_all ["td"; "th"] row !! 1%nat = Some c1 /\
      Soup.find_all ["td"; "th"] row !! 2%nat = Some c2 /\
      Py.int (Py.strip (Soup.get_text c0)) = Ok x /\
      Py.int (Py.strip (Soup.get_text c2)) = Ok y /\
      Py.strip (Soup.get_text c1) = ch /\ ch <> "".
Proof.
  intros Htable. split.
  - unfold parse_table_characters. rewrite Htable.
    unfold lift. by rewrite parse_rows_spec.
  - intros row x y ch. unfold row_entry.
    destruct (Soup.find_all ["td"; "th"] row) as [|c0 [|c1 [|c2 cells]]];
      simpl; try (split; [done | intros (? & ? & ? & ? & _); lia]).
    split.
    + intros H. exists c0, c1, c2.
      destruct (Py.int (Py.strip (Soup.get_text c0))) as [x'|]; [|done].
      destruct (Py.int (Py.strip (Soup.get_text c2))) as [y'|]; [|done].
      case_bool_decide; [done|]. injection H as -> -> <-.
      repeat split; try done. lia.
    + intros (d0 & d1 & d2 & _ & [= <-] & [= <-] & [= <-] & -> & -> & <- & Hch).
      by rewrite bool_decide_false.
Qed.

(** The sample markup has a table; its three data rows are the entries. *)
Lemma parse_table_rows_witness :
  parse_table_characters sample_bs sample_html []
  = (Ok [(0, 1, "A"); (1, 1, "B"); (0, 0, "C")], []).
Proof.
  refine (proj1 (parse_table_rows sample_bs sample_html
                   (Tag "table"
                      [table_row ["x-coordinate"; "Character"; "y-coordinate"];
                       table_row ["0"; "A"; "1"];
                       table_row ["1"; "B"; "1"];
                       table_row ["0"; "C"; "0"]]) [] _)).
  reflexivity.
Defined.

(** ** The Fetcher and the orchestration *)

Lemma fetch_failure (requests_get : string -> result Response)
    (url err : string) (out : stdout) :
  fetch_fails requests_get url err ->
  fetch_and_parse_doc requests_get url out
  = (Ok None, (out ++ ["Error fetching the document: " +:+ err])%list).
Proof.
  unfold fetch_and_parse_doc, fetch_fails, raise_for_status.
  intros [-> | (response & -> & Hstatus & ->)]; simpl; [done|].
  destruct (Z.leb_spec 400 (status_code response)); [|lia].
  destruct (Z.ltb_spec (status_code response) 600); [|lia].
  done.
Qed.

Lemma fetch_success (requests_get : string -> result Response)
    (url body : string) (out : stdout) :
  fetch_succeeds requests_get url body ->
  fetch_and_parse_doc requests_get url out = (Ok (Some body), out).
Proof.
  unfold fetch_and_parse_doc, fetch_succeeds, raise_for_status.
  intros (response & -> & Hstatus & ->); simpl.
  destruct (Z.leb_spec 400 (status_code response));
    destruct (Z.ltb_spec (status_code response) 600); simpl; done || lia.
Qed.

(** C8. When the request fails, by a [RequestException] of [requests.get]
    or by an error status, [fetch_and_parse_doc] raises nothing, prints the
    one line ["Error fetching the document: "] followed by the description
    of the failure, and returns [None]; [extract_secret_message_from_doc]
    then returns with nothing more printed, whatever the parser would
    make of any markup. *)
Theorem fetch_failure_stops
    (requests_get : string -> result Response) (bs : string -> node)
    (url err : string) (out : stdout) :
  fetch_fails requests_get url err ->
  fetch_and_parse_doc requests_get url out
  = (Ok None, (out ++ ["Error fetching the document: " +:+ err])%list) /\
  extract_secret_message_from_doc requests_get bs url out
  = (Ok tt, (out ++ ["Error fetching the document: " +:+ err])%list).
Proof.
  intros Hfail. split; [by apply fetch_failure|].
  unfold extract_secret_message_from_doc, mbind at 1, io_bind.
  by rewrite (fetch_failure requests_get url err out Hfail).
Qed.

(** A server that answers 404. *)
Lemma fetch_failure_stops_witness :
  fetch_and_parse_doc not_found "https://example.org/doc" []
  = (Ok None,
     ["Error fetching the document: 404 Client Error: Not Found for url: https://example.org/doc"]) /\
  extract_secret_message_from_doc not_found sample_bs "https://example.org/doc" []
  = (Ok tt,
     ["Error fetching the document: 404 Client Error: Not Found for url: https://example.org/doc"]).
Proof.
  apply (fetch_failure_stops not_found sample_bs "https://example.org/doc"
           "404 Client Error: Not Found for url: https://example.org/doc" []).
  right. eexists. split; [reflexivity|]. split; [simpl; lia | reflexivity].
Defined.

(** C1, as stated, fails. A body without a table makes the program print
    two lines, the parser's message and then the orchestrator's; an empty
    body, which has no table either, makes it print nothing. *)
Lemma no_table_output_is_not_one_line :
  (Soup.find "table" (sample_bs "hello") = None /\
   extract_secret_message_from_doc (serve "hello") sample_bs "u" []
   = (Ok tt, ["No table found in the document.";
              "No characters found in the document."])) /\
  (Soup.find "table" (sample_bs "") = None /\
   extract_secret_message_from_doc (serve "") sample_bs "u" []
   = (Ok tt, [])).
Proof. split; split; reflexivity. Qed.

(** C1 (amended). When the fetched markup is not empty and contains no
    table element, the program prints exactly two lines, ["No table found
    in the document."] and then ["No characters found in the document."],
    and no grid line. *)
Theorem no_table_output
    (requests_get : string -> result Response) (bs : string -> node)
    (url body : string) (out : stdout) :
  fetch_succeeds requests_get url body ->
  body <> "" ->
  Soup.find "table" (bs body) = None ->
  extract_secret_message_from_doc requests_get bs url out
  = (Ok tt, (out ++ ["No table found in the document.";
                     "No characters found in the document."])%list).
Proof.
  intros Hfetch Hbody Htable.
  unfold extract_secret_message_from_doc, mbind at 1, io_bind.
  rewrite (fetch_success requests_get url body out Hfetch).
  destruct body as [|a body]; [done|].
  unfold parse_table_characters. rewrite Htable.
  unfold mbind, io_bind, mret, io_ret, print. simpl.
  by rewrite <- app_assoc.
Qed.

(** The body ["hello"] has no table. *)
Lemma no_table_output_witness :
  extract_secret_message_from_doc (serve "hello") sample_bs "u" []
  = (Ok tt, ["No table found in the document.";
             "No characters found in the document."]).
Proof.
  apply (no_table_output (serve "hello") sample_bs "u" "hello" []).
  - eexists. split; [reflexivity|]. split; [simpl; lia | reflexivity].
  - discriminate.
  - reflexivity.
Defined.

(** C2 fails on the code. The markup [negative_html] is fetched
    successfully and parsed into the entries [(0, 0, "A")] and
    [(-2, 0, "B")]; the grid has one column, the assignment
    [grid[0][-2] = "B"] raises [IndexError], nothing catches it, and the
    program ends with that exception before printing anything. *)
Theorem negative_coordinate_raises :
  parse_table_characters sample_bs negative_html []
  = (Ok [(0, 0, "A"); (-2, 0, "B")], []) /\
  arrange_chars_into_grid [(0, 0, "A"); (-2, 0, "B")] 6 13 = Raise IndexError /\
  extract_secret_message_from_doc (serve negative_html) sample_bs "u" []
  = (Raise IndexError, []).
Proof. split; [|split]; reflexivity. Qed.

(** The parser never raises. *)
Lemma parse_table_total (bs : string -> node) (table_str : string) (out : stdout) :
  exists cs out1, parse_table_characters bs table_str out = (Ok cs, out1).
Proof.
  unfold parse_table_characters.
  destruct (Soup.find "table" (bs table_str)) as [table|].
  - unfold lift. rewrite parse_rows_spec. eauto.
  - by eexists _, _.
Qed.

(** The program after a successful fetch, stage by stage. *)
Lemma extract_after_fetch
    (requests_get : string -> result Response) (bs : string -> node)
    (url body : string) (out : stdout) :
  fetch_succeeds requests_get url body ->
  extract_secret_message_from_doc requests_get bs url out =
  match body with
  | EmptyString => (Ok tt, out)
  | _ =>
      match parse_table_characters bs body out with
      | (Ok [], out1) => print "No characters found in the document." out1
      | (Ok cs, out1) =>
          match arrange_chars_into_grid cs 6 13 with
          | Ok g => print_grid g out1
          | Raise e => (Raise e, out1)
          end
      | (Raise e, out1) => (Raise e, out1)
      end
  end.
Proof.
  intros Hfetch.
  unfold extract_secret_message_from_doc, mbind at 1, io_bind.
  rewrite (fetch_success requests_get url body out Hfetch).
  destruct body as [|a body]; [done|]. cbv beta iota.
  unfold mbind at 1, io_bind.
  destruct (parse_table_characters bs (String a body) out) as [[cs|e] out1];
    [|done].
  destruct cs as [|c cs]; [done|]. unfold mbind, io_bind, lift.
  by destruct (arrange_chars_into_grid (c :: cs) 6 13).
Qed.

(** After a successful fetch the only exception the program can end with
    is the [IndexError] of the Grid Builder, and it ends normally whenever
    the parsed entries have non-negative coordinates. *)
Lemma pipeline_outcome
    (requests_get : string -> result Response) (bs : string -> node)
    (url body : string) (out : stdout) :
  fetch_succeeds requests_get url body ->
  (exists out2,
      extract_secret_message_from_doc requests_get bs url out = (Ok tt, out2)) \/
  (exists cs out1,
      parse_table_characters bs body out = (Ok cs, out1) /\
      ~ Forall nonneg cs /\
      extract_secret_message_from_doc requests_get bs url out
      = (Raise IndexError, out1)).
Proof.
  intros Hfetch. rewrite (extract_after_fetch _ bs _ body out Hfetch).
  destruct body as [|a body]; [left; eauto|].
  destruct (parse_table_total bs (String a body) out) as (cs & out1 & Hparse).
  rewrite Hparse. destruct cs as [|e cs]; [left; eauto|].
  destruct (maxima_is_Ok (e :: cs)) as (mx & my & Hx & Hy); [done|].
  destruct (arrange_cases (e :: cs) 6 13 mx my) as
    [[_ (g & -> & _)] | [Hbad ->]]; [done..| |].
  - left. unfold print_grid. rewrite for_print. eauto.
  - right. exists (e :: cs), out1. split; [done|]. split; [|done].
    intros Hnn. apply Hbad. by apply nonneg_placeable.
Qed.

(** ** Further properties of the Grid Builder *)

Lemma placeable_wraps_within (cs : list entry) (mx my : Z) :
  max_x cs = Ok mx -> max_y cs = Ok my ->
  Forall (placeable (Z.to_nat (my + 1)) (Z.to_nat (mx + 1))) cs <->
  Forall (wraps_within mx my) cs.
Proof.
  intros Hx Hy.
  destruct (max_x_spec cs mx Hx) as [(y0 & c0 & Hin0) Hxle].
  destruct (max_y_spec cs my Hy) as [(x1 & c1 & Hin1) Hyle].
  rewrite !Forall_forall. split; intros Hall.
  - pose proof (Hall _ Hin0) as [_ H0]. pose proof (Hall _ Hin1) as [H1 _].
    intros [[x y] ch] Hin. pose proof (Hall _ Hin) as [Hyr Hxr].
    unfold wraps_within, in_range in *. lia.
  - pose proof (Hall _ Hin0) as [H0 _]. pose proof (Hall _ Hin1) as [_ H1].
    intros [[x y] ch] Hin. pose proof (Hall _ Hin) as [Hxr Hyr].
    pose proof (Hxle x y ch Hin). pose proof (Hyle x y ch Hin).
    unfold placeable, in_range. lia.
Qed.

(** X2. For a non-empty list the builder returns a grid exactly when every
    entry has [-(max_x + 1) <= x] and [-(max_y + 1) <= y], and raises
    [IndexError] exactly when some entry has not; it ends in no other
    way. *)
Theorem arrange_raises_iff (cs : list entry) (xs ys mx my : Z) :
  max_x cs = Ok mx -> max_y cs = Ok my ->
  ((exists g, arrange_chars_into_grid cs xs ys = Ok g) <->
   Forall (wraps_within mx my) cs) /\
  (arrange_chars_into_grid cs xs ys = Raise IndexError <->
   ~ Forall (wraps_within mx my) cs).
Proof.
  intros Hx Hy.
  assert (cs <> []) as Hne by (intros ->; discriminate).
  rewrite <- (placeable_wraps_within cs mx my Hx Hy).
  destruct (arrange_cases cs xs ys mx my Hne Hx Hy)
    as [[Hall (g & Hg & _)] | [Hbad Hraise]].
  - rewrite Hg. split; (split; [done || eauto|]).
    + eauto.
    + intros Hno. by destruct Hno.
  - rewrite Hraise. split; (split; [|done]).
    + by intros [g ?].
    + done.
Qed.

Lemma arrange_raises_iff_witness :
  ((exists g, arrange_chars_into_grid [(1, 0, "a"); (-3, 0, "b")] 6 13 = Ok g) <->
   Forall (wraps_within 1 0) [(1, 0, "a"); (-3, 0, "b")]) /\
  (arrange_chars_into_grid [(1, 0, "a"); (-3, 0, "b")] 6 13 = Raise IndexError <->
   ~ Forall (wraps_within 1 0) [(1, 0, "a"); (-3, 0, "b")]).
Proof.
  apply (arrange_raises_iff [(1, 0, "a"); (-3, 0, "b")] 6 13 1 0);
    reflexivity.
Defined.

(** X3. In the grid the builder returns, negative coordinates included,
    [grid[y][x]] holds the character of the entry [(x, y, c)] unless a
    later entry indexes the same cell. *)
Theorem getcell_last_write
    (cs : list entry) (xs ys mx my : Z) (g : Grid)
    (i : nat) (x y : Z) (ch : string) :
  max_x cs = Ok mx -> max_y cs = Ok my ->
  arrange_chars_into_grid cs xs ys = Ok g ->
  cs !! i = Some (x, y, ch) ->
  (forall j e, (i < j)%nat -> cs !! j = Some e ->
      ~ same_cell (Z.to_nat (my + 1)) (Z.to_nat (mx + 1)) (x, y, ch) e) ->
  getcell g y x = Ok ch.
Proof.
  intros Hx Hy Hg Hi Hlater.
  assert (cs <> []) as Hne by (intros ->; discriminate).
  destruct (arrange_Ok_maxima cs xs ys mx my g Hne Hx Hy Hg)
    as (_ & _ & Hrect & Hall).
  destruct (arrange_cells cs xs ys mx my g Hx Hy Hg) as [Hlast _].
  rewrite Forall_forall in Hall.
  pose proof (Hall _ (list_elem_of_lookup_2 _ _ _ Hi)) as [Hyr Hxr].
  apply index_in_range in Hyr as [r Hr]. apply index_in_range in Hxr as [c Hc].
  apply (getcell_cell _ _ g x y ch ch r c Hrect); [done|].
  apply (Hlast i x y ch r c Hi); [done|].
  intros j [[x' y'] ch'] Hj Hj' [Hr' Hc'].
  apply (Hlater j _ Hj Hj'). simpl. split; congruence.
Qed.

Lemma getcell_last_write_witness :
  getcell [["a"; "c"]] 0 (-1) = Ok "c".
Proof.
  apply (getcell_last_write [(1, 0, "z"); (0, 0, "a"); (-1, 0, "c")]
           6 13 1 0 [["a"; "c"]] 2%nat (-1) 0 "c");
    try reflexivity.
  intros j e Hj He. apply lookup_lt_Some in He. simpl in He. lia.
Defined.

Lemma grid_ext (h w : nat) (g g' : Grid) :
  rect h w g -> rect h w g' ->
  (forall r c, (r < h)%nat -> (c < w)%nat -> cell g r c = cell g' r c) ->
  g = g'.
Proof.
  intros Hg Hg' Hcell. apply list_eq. intros r.
  destruct (decide (r < h)%nat) as [Hr|Hr].
  - destruct (lookup_lt_is_Some_2 g r) as [row Hrow]; [by rewrite (proj1 Hg)|].
    destruct (lookup_lt_is_Some_2 g' r) as [row' Hrow']; [by rewrite (proj1 Hg')|].
    rewrite Hrow, Hrow'. f_equal. apply list_eq. intros c.
    pose proof (rect_row _ _ _ _ _ Hg Hrow) as Hw.
    pose proof (rect_row _ _ _ _ _ Hg' Hrow') as Hw'.
    destruct (decide (c < w)%nat) as [Hc|Hc].
    + specialize (Hcell r c Hr Hc). unfold cell in Hcell.
      by rewrite Hrow, Hrow' in Hcell.
    + rewrite !lookup_ge_None_2 by lia. done.
  - rewrite !lookup_ge_None_2; [done | rewrite (proj1 Hg'); lia
                                | rewrite (proj1 Hg); lia].
Qed.

Lemma maxima_permutation (cs cs' : list entry) (mx my mx' my' : Z) :
  cs ≡ₚ cs' ->
  max_x cs = Ok mx -> max_y cs = Ok my ->
  max_x cs' = Ok mx' -> max_y cs' = Ok my' ->
  mx = mx' /\ my = my'.
Proof.
  intros Hperm Hx Hy Hx' Hy'.
  destruct (max_x_spec cs mx Hx) as [(y0 & c0 & Hin0) Hxle].
  destruct (max_y_spec cs my Hy) as [(x1 & c1 & Hin1) Hyle].
  destruct (max_x_spec cs' mx' Hx') as [(y0' & c0' & Hin0') Hxle'].
  destruct (max_y_spec cs' my' Hy') as [(x1' & c1' & Hin1') Hyle'].
  rewrite Hperm in Hin0, Hin1. rewrite <- Hperm in Hin0', Hin1'.
  pose proof (Hxle' _ _ _ Hin0). pose proof (Hxle _ _ _ Hin0').
  pose proof (Hyle' _ _ _ Hin1). pose proof (Hyle _ _ _ Hin1').
  lia.
Qed.

(** With non-negative coordinates and no two entries at the same place,
    every entry is found in its cell. *)
Lemma arrange_cell_nodup (cs : list entry) (xs ys mx my : Z) (g : Grid)
    (x y : Z) (ch : string) :
  Forall nonneg cs -> NoDup (coords <$> cs) ->
  max_x cs = Ok mx -> max_y cs = Ok my ->
  arrange_chars_into_grid cs xs ys = Ok g ->
  (x, y, ch) ∈ cs ->
  cell g (Z.to_nat y) (Z.to_nat x) = Some ch.
Proof.
  intros Hnn Hnd Hx Hy Hg Hin.
  assert (cs <> []) as Hne by (intros ->; inversion Hin).
  destruct (arrange_Ok_maxima cs xs ys mx my g Hne Hx Hy Hg)
    as (_ & _ & Hrect & Hall).
  destruct (arrange_cells cs xs ys mx my g Hx Hy Hg) as [Hlast _].
  rewrite Forall_forall in Hnn, Hall.
  pose proof (Hnn _ Hin) as [Hx0 Hy0]. pose proof (Hall _ Hin) as [Hyr Hxr].
  apply list_elem_of_lookup in Hin as [i Hi].
  apply (Hlast i x y ch _ _ Hi).
  - apply addresses_nonneg; [done..|]. unfold in_range in *. lia.
  - intros j [[x' y'] ch'] Hj Hj' Haddr.
    pose proof (Hnn _ (list_elem_of_lookup_2 _ _ _ Hj')) as [Hx0' Hy0'].
    apply addresses_nonneg in Haddr as (_ & Hy' & Hx'); [|done..].
    assert (i = j); [|lia].
    apply (NoDup_lookup (coords <$> cs) i j (x, y) Hnd).
    + by rewrite list_lookup_fmap, Hi.
    + rewrite list_lookup_fmap, Hj'. simpl. do 2 f_equal; lia.
Qed.

(** X4. The order of the entries does not matter when no two of them
    have the same coordinates: for non-negative coordinates, any
    reordering of such a list gives the same grid. *)
Theorem arrange_permutation (cs cs' : list entry) (xs ys : Z) :
  cs ≡ₚ cs' ->
  Forall nonneg cs ->
  NoDup (coords <$> cs) ->
  arrange_chars_into_grid cs xs ys = arrange_chars_into_grid cs' xs ys.
Proof.
  intros Hperm Hnn Hnd.
  destruct (decide (cs = [])) as [->|Hne].
  { by apply Permutation_nil_l in Hperm as <-. }
  assert (cs' <> []) as Hne'.
  { intros ->. by apply Permutation_nil_r in Hperm. }
  assert (Forall nonneg cs') as Hnn' by by rewrite <- Hperm.
  assert (NoDup (coords <$> cs')) as Hnd' by by rewrite <- Hperm.
  destruct (maxima_is_Ok cs Hne) as (mx & my & Hx & Hy).
  destruct (maxima_is_Ok cs' Hne') as (mx' & my' & Hx' & Hy').
  destruct (maxima_permutation cs cs' mx my mx' my' Hperm Hx Hy Hx' Hy')
    as [<- <-].
  destruct (arrange_nonneg cs xs ys Hnn) as [g Hg].
  destruct (arrange_nonneg cs' xs ys Hnn') as [g' Hg'].
  rewrite Hg, Hg'. f_equal.
  destruct (arrange_Ok_maxima cs xs ys mx my g Hne Hx Hy Hg)
    as (_ & _ & Hrect & _).
  destruct (arrange_Ok_maxima cs' xs ys mx my g' Hne' Hx' Hy' Hg')
    as (_ & _ & Hrect' & _).
  apply (grid_ext _ _ g g' Hrect Hrect'). intros r c Hr Hc.
  destruct (decide (Exists (fun e => coords e = (Z.of_nat c, Z.of_nat r)) cs))
    as [Hex|Hno].
  - apply Exists_exists in Hex as ([[x y] ch] & Hin & [= -> ->]).
    pose proof (arrange_cell_nodup cs xs ys mx my g _ _ ch Hnn Hnd Hx Hy Hg Hin)
      as H1.
    rewrite Hperm in Hin.
    pose proof (arrange_cell_nodup cs' xs ys mx my g' _ _ ch Hnn' Hnd' Hx' Hy' Hg' Hin)
      as H2.
    rewrite !Nat2Z.id in H1, H2. congruence.
  - assert (forall e, e ∈ cs ->
              ~ addresses (Z.to_nat (my + 1)) (Z.to_nat (mx + 1)) e r c) as Hfree.
    { intros [[x y] ch] Hin Haddr. apply Hno, Exists_exists.
      exists (x, y, ch). split; [done|].
      pose proof (proj1 (Forall_forall _ _) Hnn _ Hin) as [Hx0 Hy0].
      apply addresses_nonneg in Haddr as (_ & -> & ->); [|done..].
      simpl. by rewrite !Z2Nat.id. }
    rewrite (proj2 (arrange_cells cs xs ys mx my g Hx Hy Hg) r c Hr Hc Hfree).
    rewrite (proj2 (arrange_cells cs' xs ys mx my g' Hx' Hy' Hg') r c Hr Hc);
      [done|].
    intros e He. apply Hfree. by rewrite Hperm.
Qed.

Lemma arrange_permutation_witness :
  arrange_chars_into_grid [(0, 1, "A"); (1, 1, "B"); (0, 0, "C")] 6 13
  = arrange_chars_into_grid [(0, 0, "C"); (0, 1, "A"); (1, 1, "B")] 6 13.
Proof.
  apply (arrange_permutation
           [(0, 1, "A"); (1, 1, "B"); (0, 0, "C")]
           [(0, 0, "C"); (0, 1, "A"); (1, 1, "B")] 6 13).
  - apply Permutation_sym.
    apply (Permutation_cons_append [(0, 1, "A"); (1, 1, "B")] (0, 0, "C")).
  - repeat constructor; simpl; lia.
  - refine (bool_decide_unpack _ _). vm_compute. exact I.
Defined.

(** A property of the blank and of every character placed holds of every
    cell of the populated grid. *)
Lemma populate_cells_Forall (P : string -> Prop) (h w : nat)
    (cs : list entry) (g g' : Grid) :
  rect h w g ->
  (forall r c s, cell g r c = Some s -> P s) ->
  Forall (fun e => P (glyph e)) cs ->
  populate g cs = Ok g' ->
  forall r c s, cell g' r c = Some s -> P s.
Proof.
  revert g. induction cs as [|[[x y] ch] cs IH]; intros g Hg HP Hcs; simpl.
  - by intros [= <-].
  - destruct (place g (x, y, ch)) as [g1|] eqn:E; simpl; [|discriminate].
    apply Forall_cons_1 in Hcs as [Hch Hcs].
    destruct (place_Ok _ _ _ _ _ _ _ Hg E) as (r1 & c1 & _ & Hg1 & Hcell).
    apply (IH g1 Hg1); [|done].
    intros r c s. rewrite Hcell. case_decide; [|by apply HP].
    by intros [= <-].
Qed.

Lemma arrange_rows_Forall (P : string -> Prop)
    (cs : list entry) (xs ys : Z) (g : Grid) :
  P " " -> Forall (fun e => P (glyph e)) cs ->
  arrange_chars_into_grid cs xs ys = Ok g ->
  Forall (Forall P) g.
Proof.
  intros Hblank Hcs Hg.
  destruct (decide (cs = [])) as [->|Hne]; [by injection Hg as <-|].
  destruct (maxima_is_Ok cs Hne) as (mx & my & Hx & Hy).
  rewrite (arrange_unfold cs xs ys mx my) in Hg by done.
  apply Forall_lookup. intros r row Hrow.
  apply Forall_lookup. intros c s Hs.
  apply (populate_cells_Forall P _ _ cs _ g (blank_grid_rect mx my))
    with (r := r) (c := c); [|done..|].
  - intros r' c' s'. unfold cell. rewrite blank_grid_replicate.
    intros Hc. destruct (replicate _ _ !! r') as [row'|] eqn:Hr'; [|done].
    apply lookup_replicate_1 in Hr' as [-> _]. simpl in Hc.
    by apply lookup_replicate_1 in Hc as [-> _].
  - unfold cell. by rewrite Hrow.
Qed.

Lemma arrange_nonneg_cell (cs : list entry) (xs ys : Z) (g : Grid)
    (i : nat) (x y : Z) (ch : string) :
  Forall nonneg cs ->
  arrange_chars_into_grid cs xs ys = Ok g ->
  cs !! i = Some (x, y, ch) ->
  (forall j ch', (i < j)%nat -> cs !! j <> Some (x, y, ch')) ->
  cell g (Z.to_nat y) (Z.to_nat x) = Some ch.
Proof.
  intros Hnn Hg Hi Hlater.
  assert (cs <> []) as Hne by (intros ->; by rewrite lookup_nil in Hi).
  destruct (maxima_is_Ok cs Hne) as (mx & my & Hx & Hy).
  destruct (arrange_Ok_maxima cs xs ys mx my g Hne Hx Hy Hg)
    as (_ & _ & Hrect & Hall).
  destruct (arrange_cells cs xs ys mx my g Hx Hy Hg) as [Hlast _].
  rewrite Forall_forall in Hnn, Hall.
  pose proof (list_elem_of_lookup_2 _ _ _ Hi) as Hin.
  pose proof (Hnn _ Hin) as [Hx0 Hy0]. pose proof (Hall _ Hin) as [Hyr Hxr].
  apply (Hlast i x y ch _ _ Hi).
  - apply addresses_nonneg; [done..|]. unfold in_range in *. lia.
  - intros j [[x' y'] ch'] Hj Hj' Haddr.
    pose proof (Hnn _ (list_elem_of_lookup_2 _ _ _ Hj')) as [Hx0' Hy0'].
    apply addresses_nonneg in Haddr as (_ & Hy' & Hx'); [|done..].
    apply (Hlater j ch' Hj). rewrite Hj'. do 2 f_equal. f_equal; lia.
Qed.

Lemma string_length_app (s t : string) :
  String.length (s +:+ t) = (String.length s + String.length t)%nat.
Proof. induction s as [|a s IH]; [done|]. simpl. by rewrite <- IH. Qed.

Lemma join_single_length (row : list string) :
  Forall (fun s => String.length s = 1%nat) row ->
  String.length (Py.join "" row) = length row.
Proof.
  rewrite join_empty_sep. induction 1 as [|s row Hs _ IH]; [done|].
  simpl. by rewrite string_length_app, Hs, IH.
Qed.

Lemma join_single_get (row : list string) (n : nat) (a : ascii) :
  Forall (fun s => String.length s = 1%nat) row ->
  row !! n = Some (String a "") ->
  String.get n (Py.join "" row) = Some a.
Proof.
  rewrite join_empty_sep. intros Hrow. revert n.
  induction Hrow as [|s row Hs _ IH]; intros n Hn; [done|].
  destruct s as [|b [|? ?]]; try discriminate.
  destruct n as [|n]; simpl in Hn.
  - by injection Hn as ->.
  - exact (IH n Hn).
Qed.

(** ** Further properties of the Renderer after the Grid Builder *)

(** X5. When all coordinates are non-negative and every character is a
    single one, the grid built from the entries is printed as exactly
    [max_y + 1] lines of exactly [max_x + 1] characters each. *)
Theorem printed_grid_shape
    (cs : list entry) (xs ys mx my : Z) (out : stdout) :
  Forall nonneg cs ->
  Forall (fun e => String.length (glyph e) = 1%nat) cs ->
  max_x cs = Ok mx -> max_y cs = Ok my ->
  exists g lines,
    arrange_chars_into_grid cs xs ys = Ok g /\
    print_grid g out = (Ok tt, (out ++ lines)%list) /\
    Z.of_nat (length lines) = my + 1 /\
    Forall (fun line => Z.of_nat (String.length line) = mx + 1) lines.
Proof.
  intros Hnn Hsingle Hx Hy.
  assert (cs <> []) as Hne by (intros ->; discriminate).
  destruct (arrange_nonneg cs xs ys Hnn) as [g Hg].
  destruct (arrange_Ok_maxima cs xs ys mx my g Hne Hx Hy Hg)
    as (H0x & H0y & [Hlen Hrows] & _).
  pose proof (arrange_rows_Forall (fun s => String.length s = 1%nat)
                cs xs ys g eq_refl Hsingle Hg) as Hcells.
  exists g, (map (Py.join "") (reverse g)).
  split; [done|]. split; [apply for_print|]. split.
  - rewrite length_map, length_reverse. lia.
  - apply Forall_fmap, Forall_reverse, Forall_lookup. intros r row Hrow. simpl.
    rewrite join_single_length
      by exact (proj1 (Forall_lookup _ _) Hcells r row Hrow).
    rewrite (proj1 (Forall_lookup _ _) Hrows r row Hrow). lia.
Qed.

Lemma printed_grid_shape_witness :
  exists g lines,
    arrange_chars_into_grid [(0, 1, "A"); (1, 1, "B"); (0, 0, "C")] 6 13
      = Ok g /\
    print_grid g [] = (Ok tt, ([] ++ lines)%list) /\
    Z.of_nat (length lines) = 1 + 1 /\
    Forall (fun line => Z.of_nat (String.length line) = 1 + 1) lines.
Proof.
  apply (printed_grid_shape [(0, 1, "A"); (1, 1, "B"); (0, 0, "C")] 6 13 1 1 []).
  - repeat constructor; simpl; lia.
  - repeat constructor.
  - reflexivity.
  - reflexivity.
Defined.

(** X6. When all coordinates are non-negative and every character is a
    single one, the character of an entry [(x, y, a)] that no later entry
    with the same coordinates replaces is printed on line [max_y - y],
    counted from the first line, at position [x]. *)
Theorem printed_character_position
    (cs : list entry) (xs ys mx my : Z) (out : stdout)
    (i : nat) (x y : Z) (a : ascii) :
  Forall nonneg cs ->
  Forall (fun e => String.length (glyph e) = 1%nat) cs ->
  max_x cs = Ok mx -> max_y cs = Ok my ->
  cs !! i = Some (x, y, String a "") ->
  (forall j ch', (i < j)%nat -> cs !! j <> Some (x, y, ch')) ->
  exists g lines line,
    arrange_chars_into_grid cs xs ys = Ok g /\
    print_grid g out = (Ok tt, (out ++ lines)%list) /\
    lines !! Z.to_nat (my - y) = Some line /\
    String.get (Z.to_nat x) line = Some a.
Proof.
  intros Hnn Hsingle Hx Hy Hi Hlater.
  assert (cs <> []) as Hne by (intros ->; discriminate).
  destruct (arrange_nonneg cs xs ys Hnn) as [g Hg].
  destruct (arrange_Ok_maxima cs xs ys mx my g Hne Hx Hy Hg)
    as (H0x & H0y & [Hlen Hrows] & _).
  pose proof (arrange_rows_Forall (fun s => String.length s = 1%nat)
                cs xs ys g eq_refl Hsingle Hg) as Hcells.
  pose proof (arrange_nonneg_cell cs xs ys g i x y _ Hnn Hg Hi Hlater) as Hcell.
  unfold cell in Hcell.
  destruct (g !! Z.to_nat y) as [row|] eqn:Hrow; [|done]. simpl in Hcell.
  pose proof (lookup_lt_Some _ _ _ Hrow) as Hlt.
  pose proof (proj1 (Forall_forall _ _) Hnn _ (list_elem_of_lookup_2 _ _ _ Hi))
    as [_ Hy0].
  exists g, (map (Py.join "") (reverse g)), (Py.join "" row).
  split; [done|]. split; [apply for_print|]. split.
  - rewrite list_lookup_fmap, reverse_lookup by lia.
    replace (length g - S (Z.to_nat (my - y)))%nat with (Z.to_nat y) by lia.
    by rewrite Hrow.
  - apply join_single_get; [|done].
    exact (proj1 (Forall_lookup _ _) Hcells _ row Hrow).
Qed.

Lemma printed_character_position_witness :
  exists g lines line,
    arrange_chars_into_grid [(0, 1, "A"); (1, 1, "B"); (0, 0, "C")] 6 13
      = Ok g /\
    print_grid g [] = (Ok tt, ([] ++ lines)%list) /\
    lines !! Z.to_nat (1 - 1) = Some line /\
    String.get (Z.to_nat 1) line = Some "B"%char.
Proof.
  apply (printed_character_position
           [(0, 1, "A"); (1, 1, "B"); (0, 0, "C")] 6 13 1 1 [] 1%nat).
  - repeat constructor; simpl; lia.
  - repeat constructor.
  - reflexivity.
  - reflexivity.
  - reflexivity.
  - intros j ch' Hj. destruct j as [|[|[|j]]]; try lia; discriminate.
Defined.

(** ** Further properties of the whole program *)

Lemma parse_table_found (bs : string -> node) (table_str : string)
    (table : node) (out : stdout) :
  Soup.find "table" (bs table_str) = Some table ->
  parse_table_characters bs table_str out
  = (Ok (omap row_entry (drop 1 (Soup.find_all ["tr"] table))), out).
Proof.
  intros Htable. unfold parse_table_characters. rewrite Htable.
  unfold lift. by rewrite parse_rows_spec.
Qed.

(** X1. When the fetched markup has a table none of whose rows after the
    first gives an entry, the program prints exactly the one line
    ["No characters found in the document."]. *)
Theorem no_characters_output
    (requests_get : string -> result Response) (bs : string -> node)
    (url body : string) (table : node) (out : stdout) :
  fetch_succeeds requests_get url body ->
  body <> "" ->
  Soup.find "table" (bs body) = Some table ->
  omap row_entry (drop 1 (Soup.find_all ["tr"] table)) = [] ->
  extract_secret_message_from_doc requests_get bs url out
  = (Ok tt, (out ++ ["No characters found in the document."])%list).
Proof.
  intros Hfetch Hbody Htable Hnone.
  rewrite (extract_after_fetch _ bs _ body out Hfetch).
  destruct body as [|a body]; [done|].
  by rewrite (parse_table_found bs _ table out Htable), Hnone.
Qed.

Lemma no_characters_output_witness :
  extract_secret_message_from_doc (serve "<table>")
    (fun _ => Tag "[document]"
                [Tag "table" [table_row ["0"; "A"; "0"];
                              table_row ["x"; "B"; "1"];
                              table_row ["1"; "  "; "1"];
                              table_row ["1"; "C"]]]) "u" []
  = (Ok tt, ["No characters found in the document."]).
Proof.
  apply (no_characters_output (serve "<table>") _ "u" "<table>"
           (Tag "table" [table_row ["0"; "A"; "0"];
                         table_row ["x"; "B"; "1"];
                         table_row ["1"; "  "; "1"];
                         table_row ["1"; "C"]]) []).
  - eexists. split; [reflexivity|]. split; [simpl; lia | reflexivity].
  - discriminate.
  - reflexivity.
  - reflexivity.
Defined.

(** X7. When the fetch succeeds on a non-empty body with a table whose
    rows give at least one entry, all with non-negative coordinates, the
    program prints the rows of the grid built from those entries, last
    row first, and no message. *)
Theorem successful_run_output
    (requests_get : string -> result Response) (bs : string -> node)
    (url body : string) (table : node) (out : stdout) :
  fetch_succeeds requests_get url body ->
  body <> "" ->
  Soup.find "table" (bs body) = Some table ->
  omap row_entry (drop 1 (Soup.find_all ["tr"] table)) <> [] ->
  Forall nonneg (omap row_entry (drop 1 (Soup.find_all ["tr"] table))) ->
  exists g,
    arrange_chars_into_grid
      (omap row_entry (drop 1 (Soup.find_all ["tr"] table))) 6 13 = Ok g /\
    extract_secret_message_from_doc requests_get bs url out
    = (Ok tt, (out ++ map (Py.join "") (reverse g))%list).
Proof.
  intros Hfetch Hbody Htable Hsome Hnn.
  rewrite (extract_after_fetch _ bs _ body out Hfetch).
  destruct body as [|a body]; [done|].
  rewrite (parse_table_found bs _ table out Htable).
  destruct (arrange_nonneg _ 6 13 Hnn) as [g Hg]. exists g. split; [done|].
  destruct (omap row_entry (drop 1 (Soup.find_all ["tr"] table)))
    as [|e cs]; [done|].
  rewrite Hg. apply for_print.
Qed.

Lemma successful_run_output_witness :
  exists g,
    arrange_chars_into_grid
      (omap row_entry (drop 1 (Soup.find_all ["tr"]
         (Tag "table"
            [table_row ["x-coordinate"; "Character"; "y-coordinate"];
             table_row ["0"; "A"; "1"];
             table_row ["1"; "B"; "1"];
             table_row ["0"; "C"; "0"]])))) 6 13 = Ok g /\
    extract_secret_message_from_doc (serve sample_html) sample_bs "u" []
    = (Ok tt, ([] ++ map (Py.join "") (reverse g))%list).
Proof.
  apply (successful_run_output (serve sample_html) sample_bs "u" sample_html).
  - eexists. split; [reflexivity|]. split; [simpl; lia | reflexivity].
  - discriminate.
  - reflexivity.
  - discriminate.
  - change (Forall nonneg [(0, 1, "A"); (1, 1, "B"); (0, 0, "C")]).
    repeat constructor; simpl; lia.
Defined.



(** ** Further properties of the Table Parser *)














(** ** Further edge cases *)

(** X10. A fetch that succeeds with an empty body is not reported as a
    failure by the Fetcher, which returns the empty text and prints
    nothing; the program then stops without printing anything, whatever
    the parser would have made of it. *)
Theorem empty_body_is_silent
    (requests_get : string -> result Response) (bs : string -> node)
    (url : string) (out : stdout) :
  fetch_succeeds requests_get url "" ->
  fetch_and_parse_doc requests_get url out = (Ok (Some ""), out) /\
  extract_secret_message_from_doc requests_get bs url out = (Ok tt, out).
Proof.
  intros Hfetch. split; [by apply fetch_success|].
  by rewrite (extract_after_fetch _ bs _ "" out Hfetch).
Qed.

Lemma empty_body_is_silent_witness :
  fetch_and_parse_doc (serve "") "u" [] = (Ok (Some ""), []) /\
  extract_secret_message_from_doc (serve "") sample_bs "u" [] = (Ok tt, []).
Proof.
  apply (empty_body_is_silent (serve "") sample_bs "u" []).
  eexists. split; [reflexivity|]. split; [simpl; lia | reflexivity].
Defined.

(** X11. When the largest x or the largest y of a list is negative, the
    builder raises [IndexError]: the grid it allocates has no column, or
    no row, to write to. *)
Theorem negative_maximum_raises (cs : list entry) (xs ys mx my : Z) :
  max_x cs = Ok mx -> max_y cs = Ok my ->
  mx < 0 \/ my < 0 ->
  arrange_chars_into_grid cs xs ys = Raise IndexError.
Proof.
  intros Hx Hy Hneg.
  assert (cs <> []) as Hne by (intros ->; discriminate).
  destruct (arrange_cases cs xs ys mx my Hne Hx Hy)
    as [[_ (g & Hg & _)] | [_ Hraise]]; [|done].
  destruct (arrange_Ok_maxima cs xs ys mx my g Hne Hx Hy Hg) as (? & ? & _).
  lia.
Qed.

Lemma negative_maximum_raises_witness :
  arrange_chars_into_grid [(-1, 2, "a"); (-4, 0, "b")] 6 13 = Raise IndexError.
Proof.
  apply (negative_maximum_raises [(-1, 2, "a"); (-4, 0, "b")] 6 13 (-1) 2).
  - reflexivity.
  - reflexivity.
  - left. lia.
Defined.
